(** * McBetaCpp: the POSIX back end of [java/File]

    Verification of [src/pc/linux/java/File.cpp]: the [File_Impl] class
    (construction through [realpath], the [stat] probes, directory listing,
    parent navigation, stream opening) and the two special-directory
    resolvers [File::openResourceDirectory] and [File::openWorkingDirectory].

    The file is organised as the C++ translation unit is:
    - [Strings]: [std::string] and [jstring] (a [std::u16string]) with the
      few members the code calls ([c_str], [find_last_of], [substr]);
    - [Posix] and [Fstream]: the host the code runs on, as a state the
      system calls read and change;
    - [File]: the code itself, call by call;
    - the properties of the specification. *)

From Stdlib Require Import ZArith List Bool Ascii String Lia Arith.
Import ListNotations.

Set Implicit Arguments.

(* ===================================================================== *)
(** ** Strings *)
(* ===================================================================== *)

Module Strings.

(** [std::string]: a sequence of bytes, possibly with embedded NULs. *)
Definition u8string := list ascii.

(** [char16_t] and [jstring] ([std::u16string]). *)
Definition char16 := N.
Definition jstring := list char16.

(** String literals: ["..."] and [u"..."] (7-bit text). *)
Definition lit (s : string) : u8string := list_ascii_of_string s.
Definition ulit (s : string) : jstring := map N_of_ascii (list_ascii_of_string s).

Definition NUL : ascii := zero.
Definition slash : ascii := "/"%char.
Definition backslash : ascii := "\"%char.
Definition uslash : char16 := 47%N.
Definition ubackslash : char16 := 92%N.

(** [s.c_str()] as a C library function sees it: the bytes before the
    first NUL. The same function is the conversion [std::string(const
    char* )]. *)
Fixpoint c_str (s : u8string) : u8string :=
  match s with
  | [] => []
  | c :: s' => if Ascii.eqb c NUL then [] else c :: c_str s'
  end.

(** [std::basic_string::find_last_of(chars)]: the greatest index whose
    element is one of [chars]; [None] is [npos]. The scan keeps the last
    hit seen so far. *)
Fixpoint find_last_of_from {A : Type} (eqb : A -> A -> bool)
    (i : nat) (acc : option nat) (s chars : list A) : option nat :=
  match s with
  | [] => acc
  | c :: s' =>
      find_last_of_from eqb (S i)
        (if existsb (eqb c) chars then Some i else acc) s' chars
  end.

Definition find_last_of {A : Type} (eqb : A -> A -> bool)
    (s chars : list A) : option nat :=
  find_last_of_from eqb 0 None s chars.

(** [s.substr(pos, n)] for [pos <= s.size()] (the code only calls it
    with [pos = 0]). *)
Definition substr {A : Type} (s : list A) (pos n : nat) : list A :=
  firstn n (skipn pos s).

(** [strcmp(a, b) == 0] on C strings. *)
Definition streq (a b : u8string) : bool :=
  if list_eq_dec ascii_dec a b then true else false.

(** The text codec of [util/String] ([String::toUTF8],
    [String::fromUTF8]) is not part of this translation unit: it is a
    parameter of the development. *)
Class Codec := {
  toUTF8 : jstring -> u8string;
  fromUTF8 : u8string -> jstring
}.

(** What the properties below need of a codec, when they need anything:
    the empty string is encoded by the empty string; decoding is
    compositional around a ['/'] byte and gives it the unit ['/'];
    decoding never invents a separator; re-encoding a decoded [jstring]
    does not lengthen it. UTF-8 has these properties: the bytes of a
    multi-byte sequence are all [>= 0x80]. *)
Record CodecLaws (codec : Codec) : Prop := {
  toUTF8_nil : toUTF8 [] = [];
  fromUTF8_nil : fromUTF8 [] = [];
  fromUTF8_slash : forall a b,
    fromUTF8 (a ++ slash :: b) = fromUTF8 a ++ uslash :: fromUTF8 b;
  fromUTF8_separator : forall x,
    (In uslash (fromUTF8 x) -> In slash x) /\
    (In ubackslash (fromUTF8 x) -> In backslash x);
  roundtrip_length : forall s,
    (List.length (fromUTF8 (toUTF8 s)) <= List.length s)%nat
}.

(** Modelled from the spec: the codec between the native text
    representation and UTF-8 ([util/String], not in this translation
    unit), restricted to single-byte text, where every unit is one byte.
    On 7-bit text it is UTF-8. It serves the concrete examples only. *)
Definition ascii_codec : Codec := {|
  toUTF8 := map ascii_of_N;
  fromUTF8 := map N_of_ascii
|}.

End Strings.
Import Strings.

(* ===================================================================== *)
(** ** The host *)
(* ===================================================================== *)

(** What is fixed when the translation unit is compiled: the branch of
    [#ifdef __APPLE__], the size of a pointer ([sizeof(path)] in
    [openResourceDirectory] is taken of a [char*]), [PATH_MAX], and whether
    [PLATFORM_POSIX_VERSION >= 200809L && defined(st_mtime)] holds. *)
Record Platform := {
  apple : bool;
  sizeof_pointer : Z;
  PATH_MAX : Z;
  posix_2008 : bool
}.

Definition linux_x86_64 : Platform :=
  {| apple := false; sizeof_pointer := 8; PATH_MAX := 4096; posix_2008 := true |}.

Definition macos_arm64 : Platform :=
  {| apple := true; sizeof_pointer := 8; PATH_MAX := 1024; posix_2008 := false |}.

Module Posix.

Local Open Scope Z_scope.

Record timespec := { tv_sec : Z; tv_nsec : Z }.

(** [struct stat], the members the code reads. *)
Record struct_stat := { st_mode : Z; st_size : Z; st_mtim : timespec }.

(** A node of the file system: its status and, for a directory, the names
    [readdir] yields, in the order it yields them (["."] and [".."]
    included when the host reports them). *)
Record inode := { i_stat : struct_stat; i_entries : list u8string }.

(** The state of the host. [names] is path resolution: the absolute,
    symlink-free name of the node a path leads to. [inodes] gives the node
    at such a name. Both are arbitrary: nothing below relies on an answer
    of the host unless a hypothesis says so. [umask] is the file-creation
    mask of the process. [undefined] is raised by a store outside its
    allocation and never lowered. *)
Record Host := {
  names : u8string -> option u8string;
  inodes : u8string -> option inode;
  links : u8string -> option u8string;      (* contents of symbolic links *)
  environ : u8string -> option u8string;
  executable_path : u8string;               (* _NSGetExecutablePath *)
  fds : list Z;                             (* open file descriptors *)
  dirs : list Z;                            (* open directory streams *)
  clock : timespec;
  console : list u8string;                  (* lines written to std::cout *)
  umask : Z;                                (* file-creation mask *)
  undefined : bool    (* the run has done what C++ leaves undefined *)
}.

Definition set_fs (h : Host) names' inodes' : Host :=
  {| names := names'; inodes := inodes'; links := links h;
     environ := environ h; executable_path := executable_path h;
     fds := fds h; dirs := dirs h; clock := clock h; console := console h;
     umask := umask h; undefined := undefined h |}.

Definition set_fds (h : Host) fds' : Host :=
  {| names := names h; inodes := inodes h; links := links h;
     environ := environ h; executable_path := executable_path h;
     fds := fds'; dirs := dirs h; clock := clock h; console := console h;
     umask := umask h; undefined := undefined h |}.

Definition set_dirs (h : Host) dirs' : Host :=
  {| names := names h; inodes := inodes h; links := links h;
     environ := environ h; executable_path := executable_path h;
     fds := fds h; dirs := dirs'; clock := clock h; console := console h;
     umask := umask h; undefined := undefined h |}.

Definition set_console (h : Host) console' : Host :=
  {| names := names h; inodes := inodes h; links := links h;
     environ := environ h; executable_path := executable_path h;
     fds := fds h; dirs := dirs h; clock := clock h; console := console';
     umask := umask h; undefined := undefined h |}.

Definition set_umask (h : Host) umask' : Host :=
  {| names := names h; inodes := inodes h; links := links h;
     environ := environ h; executable_path := executable_path h;
     fds := fds h; dirs := dirs h; clock := clock h; console := console h;
     umask := umask'; undefined := undefined h |}.

Definition set_undefined (h : Host) undefined' : Host :=
  {| names := names h; inodes := inodes h; links := links h;
     environ := environ h; executable_path := executable_path h;
     fds := fds h; dirs := dirs h; clock := clock h; console := console h;
     umask := umask h; undefined := undefined' |}.

(** Code that calls the host is written in the state monad over [Host]. *)
Definition M (A : Type) : Type := Host -> A * Host.

Definition ret {A} (a : A) : M A := fun h => (a, h).

Definition bind {A B} (m : M A) (k : A -> M B) : M B :=
  fun h => let (a, h') := m h in k a h'.

Definition gets {A} (f : Host -> A) : M A := fun h => (f h, h).

Definition modify (f : Host -> Host) : M unit := fun h => (tt, f h).

(** A store through a pointer at index [i] of an allocation of [size]
    bytes. Within the allocation it is an ordinary store. Outside, the
    behaviour is undefined: the host records it, and what the model
    computes from there on is only what a run does that survives the
    store. *)
Definition store_at (size i : Z) : M unit :=
  modify (fun h => if (0 <=? i) && (i <? size) then h
                   else set_undefined h true).

Definition eval {A} (m : M A) (h : Host) : A := fst (m h).
Definition exec {A} (m : M A) (h : Host) : Host := snd (m h).

Definition str_eqb (a b : u8string) : bool := streq a b.

Definition upd {B} (f : u8string -> option B) (k : u8string) (v : B)
    : u8string -> option B :=
  fun q => if str_eqb q k then Some v else f q.

(** File type and permission bits of [st_mode]. *)
Definition S_IFMT : Z := 61440.    (* 0170000 *)
Definition S_IFDIR : Z := 16384.   (* 0040000 *)
Definition S_IFREG : Z := 32768.   (* 0100000 *)
Definition S_IRUSR : Z := 256.     (* 0400 *)
Definition S_IWUSR : Z := 128.     (* 0200 *)
Definition S_IXUSR : Z := 64.      (* 0100 *)

Definition S_ISDIR (m : Z) : bool := Z.land m S_IFMT =? S_IFDIR.
Definition S_ISREG (m : Z) : bool := Z.land m S_IFMT =? S_IFREG.

Definition has (flags bit : Z) : bool := negb (Z.land flags bit =? 0).

(** [open] flags, with their Linux values. *)
Definition O_RDONLY : Z := 0.
Definition O_WRONLY : Z := 1.
Definition O_RDWR : Z := 2.
Definition O_ACCMODE : Z := 3.
Definition O_CREAT : Z := 64.      (* 0100 *)
Definition O_EXCL : Z := 128.      (* 0200 *)
Definition O_TRUNC : Z := 512.     (* 01000 *)
Definition O_APPEND : Z := 1024.   (* 02000 *)

Definition wants_read (flags : Z) : bool :=
  let acc := Z.land flags O_ACCMODE in (acc =? O_RDONLY) || (acc =? O_RDWR).
Definition wants_write (flags : Z) : bool :=
  let acc := Z.land flags O_ACCMODE in (acc =? O_WRONLY) || (acc =? O_RDWR).

(** The process owns the files it sees: access is decided by the owner
    bits. *)
Definition access_ok (i : inode) (flags : Z) : bool :=
  (negb (wants_read flags) || has (st_mode (i_stat i)) S_IRUSR) &&
  (negb (wants_write flags) || has (st_mode (i_stat i)) S_IWUSR).

(** Path resolution as every call below uses it: the empty path names
    nothing ([ENOENT]); a name without a node is dangling. *)
Definition namei (h : Host) (path : u8string) : option (u8string * inode) :=
  match path with
  | [] => None
  | _ =>
      match names h path with
      | Some c =>
          match inodes h c with
          | Some i => Some (c, i)
          | None => None
          end
      | None => None
      end
  end.

(** [realpath(path, buffer)]: [Some] of the string left in [buffer], or
    [None] for a null result. *)
Definition realpath (path : u8string) : M (option u8string) :=
  gets (fun h => option_map (fun ci => c_str (fst ci)) (namei h path)).

(** [stat(path, &buffer)]: [Some buffer] for the result 0. *)
Definition stat (path : u8string) : M (option struct_stat) :=
  gets (fun h => option_map (fun ci => i_stat (snd ci)) (namei h path)).

(** [getenv(name)]: [None] is the null pointer. *)
Definition getenv (name : u8string) : M (option u8string) :=
  gets (fun h => option_map c_str (environ h name)).

(** [readlink(path, buf, bufsiz)]: the number of bytes placed in [buf]
    (at most [bufsiz], without a terminating NUL) and those bytes, or -1. *)
Definition readlink (path : u8string) (bufsiz : Z) : M (Z * u8string) :=
  gets (fun h =>
    match links h path with
    | Some target =>
        let placed := firstn (Z.to_nat bufsiz) target in
        (Z.of_nat (List.length placed), placed)
    | None => (-1, [])
    end).

(** [_NSGetExecutablePath(buf, &bufsize)]: 0 and the path in [buf] when
    it fits with its NUL, otherwise -1 and the size needed in [bufsize]. *)
Definition _NSGetExecutablePath (bufsize : Z) : M (Z * u8string * Z) :=
  gets (fun h =>
    let p := c_str (executable_path h) in
    let need := Z.of_nat (List.length p) + 1 in
    if need <=? bufsize then (0, p, bufsize) else (-1, [], need)).

(** A descriptor not in use. *)
Definition fresh (used : list Z) : Z := 1 + fold_right Z.max 2 used.

Definition remove_fd (fd : Z) (l : list Z) : list Z :=
  filter (fun x => negb (x =? fd)) l.

(** Directory part and last component of a path to be created. *)
Definition split_last (path : u8string) : u8string * u8string :=
  match find_last_of Ascii.eqb path [slash] with
  | None => (lit ".", path)
  | Some i => (match i with O => lit "/" | _ => firstn i path end,
               skipn (S i) path)
  end.

Definition join (dir base : u8string) : u8string :=
  if str_eqb dir (lit "/") then slash :: base else dir ++ slash :: base.

Definition with_size (i : inode) (size : Z) (now : timespec) : inode :=
  {| i_stat := {| st_mode := st_mode (i_stat i); st_size := size;
                  st_mtim := now |};
     i_entries := i_entries i |}.

Definition with_entry (i : inode) (name : u8string) (now : timespec) : inode :=
  {| i_stat := {| st_mode := st_mode (i_stat i); st_size := st_size (i_stat i);
                  st_mtim := now |};
     i_entries := i_entries i ++ [name] |}.

(** A new regular file: its permission bits are those of [mode] that
    the file-creation mask does not clear ([mode & ~umask]). *)
Definition new_file (mode mask : Z) (now : timespec) : inode :=
  {| i_stat := {| st_mode := Z.lor S_IFREG (Z.ldiff (Z.land mode 4095) mask);
                  st_size := 0; st_mtim := now |};
     i_entries := [] |}.

(** Where a path that is a symbolic link leads: the content of the
    link, read from the directory of the link unless it is absolute. *)
Definition link_target (path target : u8string) : u8string :=
  match target with
  | [] => target
  | c :: _ =>
      if Ascii.eqb c slash then target
      else match find_last_of Ascii.eqb path [slash] with
           | Some i => firstn (S i) path ++ target
           | None => target
           end
  end.

(** The path left when the symbolic links a path consists of are
    followed, at most [fuel] deep ([ELOOP] beyond). *)
Fixpoint follow_links (fuel : nat) (h : Host) (path : u8string)
    : option u8string :=
  match links h path with
  | None => Some path
  | Some target =>
      match fuel with
      | O => None
      | S fuel => follow_links fuel h (link_target path target)
      end
  end.

(** Creation of a regular file at a path that names nothing
    ([open] with [O_CREAT]). The empty path is refused, and the directory
    part of the path must lead somewhere for its last name to be looked
    up. A last name that is a symbolic link (a dangling one, since the
    path names nothing) is followed: the file is made where the link
    points, and is what the path names from then on; a link that leads
    to a node is not dangling, and nothing is made through it. The
    directory the file is made in must be one the process may write and
    search. The file gets the permission bits of [mode] that the
    file-creation mask leaves. *)
Definition creat_at (h : Host) (path : u8string) (mode : Z) : option Host :=
  match path, namei h (fst (split_last path)), follow_links 40 h path with
  | _ :: _, Some _, Some place =>
      match namei h place with
      | Some _ => None
      | None =>
          let (dir, base) := split_last place in
          match base with
          | [] => None
          | _ =>
              match namei h dir with
              | Some (d, di) =>
                  if S_ISDIR (st_mode (i_stat di))
                     && has (st_mode (i_stat di)) S_IWUSR
                     && has (st_mode (i_stat di)) S_IXUSR
                  then
                    let c := join d base in
                    Some (set_fs h
                            (upd (upd (upd (names h) c c) place c) path c)
                            (upd (upd (inodes h) d
                                    (with_entry di base (clock h)))
                                 c (new_file mode (umask h) (clock h))))
                  else None
              | None => None
              end
          end
      end
  | _, _, _ => None
  end.

(** [open(path, flags, mode)]: a descriptor, or -1. *)
Definition open (path : u8string) (flags mode : Z) : M Z := fun h =>
  match namei h path with
  | Some (c, i) =>
      if has flags O_CREAT && has flags O_EXCL then (-1, h)
      else if S_ISDIR (st_mode (i_stat i)) && wants_write flags then (-1, h)
      else if negb (access_ok i flags) then (-1, h)
      else
        let h1 :=
          if has flags O_TRUNC && S_ISREG (st_mode (i_stat i))
             && wants_write flags
          then set_fs h (names h) (upd (inodes h) c (with_size i 0 (clock h)))
          else h in
        let fd := fresh (fds h1) in
        (fd, set_fds h1 (fd :: fds h1))
  | None =>
      if has flags O_CREAT then
        match creat_at h path mode with
        | Some h1 => let fd := fresh (fds h1) in (fd, set_fds h1 (fd :: fds h1))
        | None => (-1, h)
        end
      else (-1, h)
  end.

(** [close(fd)]. *)
Definition close (fd : Z) : M Z := fun h =>
  if existsb (Z.eqb fd) (fds h) then (0, set_fds h (remove_fd fd (fds h)))
  else (-1, h).

(** A directory stream ([DIR]): its handle and the entries not yet read.
    Names are C strings ([d_name]). [readdir(dir)] takes the first of them
    off the stream, and returns the null pointer when none is left. *)
Record DIR := { dd_fd : Z; dd_entries : list u8string }.

(** [opendir(path)]: [None] is the null pointer. *)
Definition opendir (path : u8string) : M (option DIR) := fun h =>
  match namei h path with
  | Some (c, i) =>
      if S_ISDIR (st_mode (i_stat i)) && has (st_mode (i_stat i)) S_IRUSR
      then
        let fd := fresh (fds h ++ dirs h) in
        (Some {| dd_fd := fd; dd_entries := map c_str (i_entries i) |},
         set_dirs h (fd :: dirs h))
      else (None, h)
  | None => (None, h)
  end.

(** [closedir(dir)]. *)
Definition closedir (dir : DIR) : M Z := fun h =>
  if existsb (Z.eqb (dd_fd dir)) (dirs h)
  then (0, set_dirs h (remove_fd (dd_fd dir) (dirs h)))
  else (-1, h).

(** [std::cout << ... << std::endl]. *)
Definition cout (line : u8string) : M unit :=
  modify (fun h => set_console h (console h ++ [line])).

(** The calls that remove and make directory entries. *)

Definition set_links (h : Host) names' links' : Host :=
  {| names := names'; inodes := inodes h; links := links';
     environ := environ h; executable_path := executable_path h;
     fds := fds h; dirs := dirs h; clock := clock h; console := console h;
     umask := umask h; undefined := undefined h |}.

Definition del {B} (f : u8string -> option B) (k : u8string)
    : u8string -> option B :=
  fun q => if str_eqb q k then None else f q.

Definition is_dot (name : u8string) : bool :=
  streq name (lit ".") || streq name (lit "..").

Definition without_entry (i : inode) (name : u8string) (now : timespec)
    : inode :=
  {| i_stat := {| st_mode := st_mode (i_stat i); st_size := st_size (i_stat i);
                  st_mtim := now |};
     i_entries := filter (fun e => negb (streq e name)) (i_entries i) |}.

Definition new_dir (mode mask : Z) (now : timespec) : inode :=
  {| i_stat := {| st_mode := Z.lor S_IFDIR (Z.ldiff (Z.land mode 4095) mask);
                  st_size := 4096; st_mtim := now |};
     i_entries := [lit "."; lit ".."] |}.

(** The directory an entry lies in, found from the path of the entry,
    when the process may change it (write and search permission), with
    the name of the entry. The root has no such directory. *)
Definition writable_parent (h : Host) (path : u8string)
    : option (u8string * inode * u8string) :=
  let (dir, base) := split_last path in
  match base with
  | [] => None
  | _ =>
      match namei h dir with
      | Some (d, di) =>
          if S_ISDIR (st_mode (i_stat di))
             && has (st_mode (i_stat di)) S_IWUSR
             && has (st_mode (i_stat di)) S_IXUSR
          then Some (d, di, base)
          else None
      | None => None
      end
  end.

(** The node of resolved name [c] taken out of its directory. *)
Definition remove_node (h : Host) (c : u8string) : option Host :=
  match writable_parent h c with
  | Some (d, di, base) =>
      Some (set_fs h (names h)
              (del (upd (inodes h) d (without_entry di base (clock h))) c))
  | None => None
  end.

(** [unlink(path)]: 0 or -1. A symbolic link is removed itself, not what
    it points to; a directory is refused. *)
Definition unlink (path : u8string) : M Z := fun h =>
  match links h path with
  | Some _ =>
      match writable_parent h path with
      | Some (d, di, base) =>
          (0, set_links
                (set_fs h (names h)
                   (upd (inodes h) d (without_entry di base (clock h))))
                (del (names h) path) (del (links h) path))
      | None => (-1, h)
      end
  | None =>
      match namei h path with
      | Some (c, i) =>
          if S_ISDIR (st_mode (i_stat i)) then (-1, h)
          else match remove_node h c with
               | Some h1 => (0, h1)
               | None => (-1, h)
               end
      | None => (-1, h)
      end
  end.

(** [rmdir(path)]: 0 or -1. Only a directory that holds nothing but
    ["."] and [".."] is removed; a symbolic link is refused. *)
Definition rmdir (path : u8string) : M Z := fun h =>
  match links h path with
  | Some _ => (-1, h)
  | None =>
      match namei h path with
      | Some (c, i) =>
          if S_ISDIR (st_mode (i_stat i))
             && forallb is_dot (map c_str (i_entries i))
          then match remove_node h c with
               | Some h1 => (0, h1)
               | None => (-1, h)
               end
          else (-1, h)
      | None => (-1, h)
      end
  end.

(** A path without its trailing slashes. *)
Fixpoint strip_slashes (path : u8string) : u8string :=
  match path with
  | [] => []
  | c :: rest =>
      match strip_slashes rest with
      | [] => if Ascii.eqb c slash then [] else [c]
      | rest' => c :: rest'
      end
  end.

(** [mkdir(path, mode)]: 0 or -1. The path must name nothing (not even
    a dangling link); its directory must exist and be writable. One level
    is made, with the bits of [mode] the file-creation mask leaves. *)
Definition mkdir (path : u8string) (mode : Z) : M Z := fun h =>
  match namei h path, links h path with
  | None, None =>
      let (dir, base) := split_last (strip_slashes path) in
      match base with
      | [] => (-1, h)
      | _ =>
          if is_dot base then (-1, h)
          else
            match namei h dir with
            | Some (d, di) =>
                if S_ISDIR (st_mode (i_stat di))
                   && has (st_mode (i_stat di)) S_IWUSR
                   && has (st_mode (i_stat di)) S_IXUSR
                then
                  let c := join d base in
                  match inodes h c with
                  | Some _ => (-1, h)
                  | None =>
                      (0, set_fs h
                            (upd (upd (names h) c c) path c)
                            (upd (upd (inodes h) d
                                    (with_entry di base (clock h)))
                                 c (new_dir mode (umask h) (clock h))))
                  end
                else (-1, h)
            | None => (-1, h)
            end
      end
  | _, _ => (-1, h)
  end.

End Posix.

Declare Scope host_scope.
Delimit Scope host_scope with host.
Notation "x <- c1 ;; c2" := (Posix.bind c1 (fun x => c2))
  (at level 61, c1 at next level, right associativity) : host_scope.
Notation "c1 ;; c2" := (Posix.bind c1 (fun _ => c2))
  (at level 61, right associativity) : host_scope.

(** [<fstream>]: the part of [std::basic_filebuf] and of the stream
    constructors that [toStreamIn] and [toStreamOut] go through. *)
Module Fstream.

Import Posix.
Local Open Scope Z_scope.
Local Open Scope host_scope.

(** [std::ios_base::openmode]. *)
Definition ios_app : Z := 1.
Definition ios_ate : Z := 2.
Definition ios_binary : Z := 4.
Definition ios_in : Z := 8.
Definition ios_out : Z := 16.
Definition ios_trunc : Z := 32.

(** The table of [basic_filebuf::open]: the [fopen] mode an [openmode]
    stands for ([binary] and [ate] put aside), as the flags [fopen] hands
    to [open]; [None] where the table has no row. *)
Definition fopen_flags (mode : Z) : option Z :=
  let m := Z.land mode (Z.lor (Z.lor ios_in ios_out) (Z.lor ios_trunc ios_app)) in
  if (m =? ios_out) || (m =? Z.lor ios_out ios_trunc)
  then Some (Z.lor O_WRONLY (Z.lor O_CREAT O_TRUNC))            (* "w" *)
  else if (m =? ios_app) || (m =? Z.lor ios_out ios_app)
  then Some (Z.lor O_WRONLY (Z.lor O_CREAT O_APPEND))           (* "a" *)
  else if m =? ios_in
  then Some O_RDONLY                                            (* "r" *)
  else if m =? Z.lor ios_in ios_out
  then Some O_RDWR                                              (* "r+" *)
  else if m =? Z.lor (Z.lor ios_in ios_out) ios_trunc
  then Some (Z.lor O_RDWR (Z.lor O_CREAT O_TRUNC))              (* "w+" *)
  else if (m =? Z.lor ios_in ios_app) || (m =? Z.lor (Z.lor ios_in ios_out) ios_app)
  then Some (Z.lor O_RDWR (Z.lor O_CREAT O_APPEND))             (* "a+" *)
  else None.

(** A file stream: the descriptor its buffer holds, and [failbit]. *)
Record fstream := { fb_fd : option Z; failbit : bool }.

Definition is_open (s : fstream) : bool :=
  match fb_fd s with Some _ => true | None => false end.

Definition good (s : fstream) : bool := negb (failbit s).

(** [basic_filebuf::open(s, mode)], then [setstate(failbit)] on failure:
    what both stream constructors do. Files are created with mode 0666. *)
Definition open_stream (path : u8string) (mode : Z) : M fstream :=
  match fopen_flags mode with
  | Some flags =>
      fd <- Posix.open (c_str path) flags 438 ;;
      if fd <? 0 then ret {| fb_fd := None; failbit := true |}
      else ret {| fb_fd := Some fd; failbit := false |}
  | None => ret {| fb_fd := None; failbit := true |}
  end.

(** [std::ifstream(path, mode)] opens with [mode | ios_base::in]. *)
Definition ifstream (path : u8string) (mode : Z) : M fstream :=
  open_stream path (Z.lor mode ios_in).

(** [std::ofstream(path, mode)] opens with [mode | ios_base::out]. *)
Definition ofstream (path : u8string) (mode : Z) : M fstream :=
  open_stream path (Z.lor mode ios_out).

(** The destructor closes the file if it is open. *)
Definition destroy (s : fstream) : M unit :=
  match fb_fd s with
  | Some fd => Posix.close fd ;; ret tt
  | None => ret tt
  end.

End Fstream.

(* ===================================================================== *)
(** ** java/File.cpp *)
(* ===================================================================== *)

Module File.

Import Posix.
Local Open Scope Z_scope.
Local Open Scope host_scope.

(** 32-bit unsigned and 64-bit signed values, with their wrap-around.
    [long_t] is declared with the Java types, outside this translation
    unit: it is taken to be Java's [long]. *)
Definition uint32_t (z : Z) : Z := z mod 4294967296.
Definition long_t (z : Z) : Z :=
  (z + 9223372036854775808) mod 18446744073709551616 - 9223372036854775808.

(** A [File_Impl]: [path] is the member of the base class [File],
    [u8path] the private member. *)
Record File := { path : jstring; u8path : u8string }.

Section WithCodec.

Context {codec : Codec}.
Variable pf : Platform.

(** [static std::string ToPath(const jstring &path)] *)
Definition ToPath (path : jstring) : M u8string :=
  let u8path := toUTF8 path in
  buffer <- realpath (c_str u8path) ;;
  match buffer with
  | None => ret u8path   (* File probably doesn't exist yet *)
  | Some buffer => ret (c_str buffer)
  end.

(** [static jstring FromPath(const std::string &path)] *)
Definition FromPath (path : u8string) : jstring := fromUTF8 path.

(** [File_Impl::File_Impl(const jstring &path)] *)
Definition File_Impl (path : jstring) : M File :=
  u8path <- ToPath path ;;
  cout (lit "Open " ++ u8path) ;;
  ret {| path := FromPath u8path; u8path := u8path |}.

(** [bool createNewFile() const] *)
Definition createNewFile (this : File) : M bool :=
  fd <- open (c_str (u8path this)) (Z.lor O_CREAT O_RDWR) 420 ;;  (* 0644 *)
  if fd <? 0 then ret false
  else close fd ;; ret true.

(** [bool exists() const] *)
Definition exists_ (this : File) : M bool :=
  buffer <- stat (c_str (u8path this)) ;;
  match buffer with
  | Some _ => ret true
  | None => ret false
  end.

(** [bool isDirectory() const] *)
Definition isDirectory (this : File) : M bool :=
  buffer <- stat (c_str (u8path this)) ;;
  match buffer with
  | None => ret false
  | Some buffer => ret (S_ISDIR (st_mode buffer))
  end.

(** [bool isFile() const] *)
Definition isFile (this : File) : M bool :=
  buffer <- stat (c_str (u8path this)) ;;
  match buffer with
  | None => ret false
  | Some buffer => ret (S_ISREG (st_mode buffer))
  end.

(** [st_mtime] and [st_mtimespec]: the names of the modification time on
    hosts that lack [st_mtim]. *)
Definition st_mtime (b : struct_stat) : Z := tv_sec (st_mtim b).
Definition st_mtimespec (b : struct_stat) : timespec := st_mtim b.

(** [long_t lastModified() const]. [return false] is the [long_t] 0; the
    products, quotients and sums are those of [long long]. *)
Definition lastModified (this : File) : M Z :=
  buffer <- stat (c_str (u8path this)) ;;
  match buffer with
  | None => ret (long_t 0)
  | Some buffer =>
      if posix_2008 pf
      then ret (long_t (long_t (tv_sec (st_mtim buffer) * 1000)
                        + Z.quot (tv_nsec (st_mtim buffer)) 1000000))
      else ret (long_t (long_t (st_mtime buffer * 1000)
                        + Z.quot (tv_nsec (st_mtimespec buffer)) 1000000))
  end.

(** [long_t length() const] *)
Definition length (this : File) : M Z :=
  buffer <- stat (c_str (u8path this)) ;;
  match buffer with
  | None => ret (long_t 0)
  | Some buffer => ret (long_t (st_size buffer))
  end.

(** The [while ((entry = readdir(dir)) != nullptr)] loop of [listFiles],
    on the entries the stream still holds. *)
Fixpoint listFiles_loop (this : File) (entries : list u8string)
    (files : list File) {struct entries} : M (list File) :=
  match entries with
  | [] => ret files
  | d_name :: entries =>
      (* Skip "." and ".." *)
      if streq d_name (lit ".") || streq d_name (lit "..")
      then listFiles_loop this entries files
      else
        let child_path := u8path this ++ lit "/" ++ d_name in
        child <- File_Impl (FromPath child_path) ;;
        listFiles_loop this entries (files ++ [child])
  end.

(** [std::vector<std::unique_ptr<File>> listFiles() const] *)
Definition listFiles (this : File) : M (list File) :=
  let files := [] in
  is_dir <- isDirectory this ;;
  if negb is_dir then ret files
  else
    dir <- opendir (c_str (u8path this)) ;;
    match dir with
    | None => ret files
    | Some dir =>
        files <- listFiles_loop this (dd_entries dir) files ;;
        closedir dir ;;
        ret files
    end.

(** [bool remove() const] *)
Definition remove (this : File) : M bool :=
  is_dir <- isDirectory this ;;
  if is_dir
  then r <- rmdir (c_str (u8path this)) ;; ret (r =? 0)
  else r <- unlink (c_str (u8path this)) ;; ret (r =? 0).

(** [bool mkdir() const] *)
Definition mkdir (this : File) : M bool :=
  r <- Posix.mkdir (c_str (u8path this)) 493 ;;   (* 0755 *)
  ret (r =? 0).

(** [File *getParentFile() const] *)
Definition getParentFile (this : File) : M File :=
  match find_last_of N.eqb (path this) (ulit "/\") with
  | Some npos => File_Impl (substr (path this) 0 npos)
  | None => File_Impl (ulit "")
  end.

(** [std::istream *toStreamIn() const]: [None] is [nullptr]; the stream
    that is not handed out is destroyed. *)
Definition toStreamIn (this : File) : M (option Fstream.fstream) :=
  is_ <- Fstream.ifstream (u8path this) Fstream.ios_binary ;;
  if negb (Fstream.is_open is_) || negb (Fstream.good is_)
  then Fstream.destroy is_ ;; ret None
  else ret (Some is_).

(** [std::ostream *toStreamOut() const] *)
Definition toStreamOut (this : File) : M (option Fstream.fstream) :=
  os <- Fstream.ofstream (u8path this) Fstream.ios_binary ;;
  if negb (Fstream.is_open os) || negb (Fstream.good os)
  then Fstream.destroy os ;; ret None
  else ret (Some os).

(** [File *File::open(const jstring &path)] *)
Definition open (path : jstring) : M File := File_Impl path.

(** [File *File::open(const File &parent, const jstring &child)] *)
Definition open_child (parent : File) (child : jstring) : M File :=
  let new_path := path parent ++ uslash :: child in
  File_Impl new_path.

(** [File *File::openResourceDirectory()]. [length] is a [uint32_t], and
    [length == -1] compares it with [(uint32_t)-1]. [path] points to
    [PATH_MAX] bytes, and [path[length] = '\0'] is a store into them when
    [length < PATH_MAX]: after [readlink], which placed [length] bytes.
    After [_NSGetExecutablePath], [length] is still [PATH_MAX] and the
    store falls one byte past the allocation. The buffer is then read as a
    C string: the bytes [readlink] placed, or the string
    [_NSGetExecutablePath] left. *)
Definition openResourceDirectory : M File :=
  let length := uint32_t (PATH_MAX pf) in
  r <- (if apple pf
        then
          r <- _NSGetExecutablePath length ;;
          let '(status, buf, _) := r in
          if negb (status =? 0)
          then ret (uint32_t (-1), buf)   (* Buffer size is too small. *)
          else ret (length, buf)
        else
          r <- readlink (lit "/proc/self/exe") (sizeof_pointer pf - 1) ;;
          ret (uint32_t (fst r), snd r)) ;;
  let (length, buf) := r : Z * u8string in
  if length =? uint32_t (-1) then File_Impl (ulit "")
  else
    store_at (PATH_MAX pf) length ;;      (* path[length] = '\0'; *)
    let path := c_str (firstn (Z.to_nat length) buf) in
    (* Convert to UTF-16 *)
    let u16str := FromPath path in
    (* Remove the executable name *)
    match find_last_of N.eqb u16str [uslash] with
    | None => File_Impl (ulit "")
    | Some pos =>
        (* Return resource directory *)
        File_Impl (substr u16str 0 pos ++ ulit "/resource")
    end.

(** [File *File::openWorkingDirectory(const jstring &name)] *)
Definition openWorkingDirectory (name : jstring) : M File :=
  (* Get the home directory environment variable *)
  path <- getenv (lit "HOME") ;;
  match path with
  | None => File_Impl (ulit "")
  | Some path =>
      (* Convert to UTF-16 *)
      let u16str := FromPath (c_str path) in
      File_Impl (u16str ++ ulit "/" ++ name)
  end.

End WithCodec.

End File.

(* ===================================================================== *)
(** ** Hosts given by tables *)
(* ===================================================================== *)

Module Tables.

Import Posix.
Local Open Scope string_scope.
Local Open Scope Z_scope.

(** The function a finite table stands for: the first row whose key is
    the argument. *)
Definition assoc {B} (tbl : list (u8string * B)) (q : u8string) : option B :=
  option_map snd (find (fun kv => str_eqb q (fst kv)) tbl).

Definition dir_node (entries : list string) (sec : Z) : inode :=
  {| i_stat := {| st_mode := Z.lor S_IFDIR 493;   (* 0755 *)
                  st_size := 4096;
                  st_mtim := {| tv_sec := sec; tv_nsec := 0 |} |};
     i_entries := map lit entries |}.

(** A directory with other permission bits than 0755. *)
Definition dir_node_perm (perm : Z) (entries : list string) (sec : Z)
    : inode :=
  {| i_stat := {| st_mode := Z.lor S_IFDIR perm;
                  st_size := 4096;
                  st_mtim := {| tv_sec := sec; tv_nsec := 0 |} |};
     i_entries := map lit entries |}.

Definition file_node (perm size sec nsec : Z) : inode :=
  {| i_stat := {| st_mode := Z.lor S_IFREG perm;
                  st_size := size;
                  st_mtim := {| tv_sec := sec; tv_nsec := nsec |} |};
     i_entries := [] |}.

Definition lit2 {B} (row : string * B) : u8string * B := (lit (fst row), snd row).
Definition lit3 (row : string * string) : u8string * u8string :=
  (lit (fst row), lit (snd row)).

(** The paths a resolution table answers for. *)
Definition keys_of (names : list (string * string)) : list u8string :=
  map (fun row => lit (fst row)) names.

(** A host with the given resolution table, nodes, symbolic links and
    environment; nothing is open, nothing has been printed, and the
    file-creation mask is the usual 022. *)
Definition host (names : list (string * string)) (inodes : list (string * inode))
    (links env : list (string * string)) (exe : string) : Host :=
  {| names := assoc (map lit3 names);
     inodes := assoc (map lit2 inodes);
     links := assoc (map lit3 links);
     environ := assoc (map lit3 env);
     executable_path := lit exe;
     fds := [];
     dirs := [];
     clock := {| tv_sec := 1700000000; tv_nsec := 0 |};
     console := [];
     umask := 18;   (* 022 *)
     undefined := false |}.

(** A machine with the game installed in [/usr/bin] and a saved world in
    the home directory of [steve]: first what its paths resolve to, then
    the machine. *)
Definition game_names : list (string * string) :=
    [("/", "/"); ("/usr", "/usr"); ("/usr/bin", "/usr/bin");
     ("/usr/bin/mcbeta", "/usr/bin/mcbeta");
     ("/usr/bin/resource", "/usr/bin/resource");
     ("/home", "/home"); ("/home/steve", "/home/steve");
     ("/home/steve/.mcbeta", "/home/steve/.mcbeta");
     ("/home/steve/.mcbeta/level.dat", "/home/steve/.mcbeta/level.dat");
     ("/home/steve/.mcbeta/.", "/home/steve/.mcbeta");
     ("/home/steve/.mcbeta/..", "/home/steve");
     ("/home/steve/.mcbeta/saves", "/home/steve/.mcbeta/saves");
     ("/home/steve/.mcbeta/latest", "/home/steve/.mcbeta/level.dat")].

Definition game_host : Host :=
  host game_names
    [("/", dir_node ["."; ".."; "usr"; "home"] 1600000000);
     ("/usr", dir_node ["."; ".."; "bin"] 1600000000);
     ("/usr/bin", dir_node ["."; ".."; "mcbeta"; "resource"] 1600000000);
     ("/usr/bin/mcbeta", file_node 493 123456 1600000000 0);
     ("/usr/bin/resource", dir_node ["."; ".."] 1600000000);
     ("/home", dir_node ["."; ".."; "steve"] 1600000000);
     ("/home/steve", dir_node ["."; ".."; ".mcbeta"] 1600000000);
     ("/home/steve/.mcbeta",
        dir_node ["saves"; "."; "level.dat"; ".."; "latest"] 1650000000);
     ("/home/steve/.mcbeta/level.dat", file_node 420 2048 1650000001 987654321);
     ("/home/steve/.mcbeta/saves", dir_node ["."; ".."] 1650000000)]
    [("/proc/self/exe", "/usr/bin/mcbeta");
     ("/home/steve/.mcbeta/latest", "level.dat")]
    [("HOME", "/home/steve")]
    "/usr/bin/mcbeta".

(** The same machine without [HOME] and without [/proc]. *)
Definition bare_host : Host :=
  host [("/", "/")] [("/", dir_node ["."; ".."] 1600000000)] [] [] "".



(** A machine on which [HOME] is set to the empty string. *)
Definition empty_home_host : Host :=
  host [("/", "/")] [("/", dir_node ["."; ".."] 1600000000)] []
    [("HOME", "")] "".

(** [game_host] under a file-creation mask that takes the write
    permission from every file made ([umask 222]). *)
Definition read_only_mask_host : Host := set_umask game_host 146.

(** [game_host] with a symbolic link [draft] next to the saved world
    that points to [draft.dat], which is not there. *)
Definition draft_host : Host :=
  host game_names
    [("/", dir_node ["."; ".."; "usr"; "home"] 1600000000);
     ("/usr", dir_node ["."; ".."; "bin"] 1600000000);
     ("/usr/bin", dir_node ["."; ".."; "mcbeta"; "resource"] 1600000000);
     ("/usr/bin/mcbeta", file_node 493 123456 1600000000 0);
     ("/usr/bin/resource", dir_node ["."; ".."] 1600000000);
     ("/home", dir_node ["."; ".."; "steve"] 1600000000);
     ("/home/steve", dir_node ["."; ".."; ".mcbeta"] 1600000000);
     ("/home/steve/.mcbeta",
        dir_node ["saves"; "."; "level.dat"; ".."; "latest"; "draft"]
          1650000000);
     ("/home/steve/.mcbeta/level.dat", file_node 420 2048 1650000001 987654321);
     ("/home/steve/.mcbeta/saves", dir_node ["."; ".."] 1650000000)]
    [("/proc/self/exe", "/usr/bin/mcbeta");
     ("/home/steve/.mcbeta/latest", "level.dat");
     ("/home/steve/.mcbeta/draft", "draft.dat")]
    [("HOME", "/home/steve")]
    "/usr/bin/mcbeta".

(** A machine with a directory [/vault] of mode 0300: its owner may
    make, remove and reach the entries, and may not list them. It holds
    one file. *)
Definition vault_names : list (string * string) :=
    [("/", "/"); ("/vault", "/vault");
     ("/vault/keys.dat", "/vault/keys.dat")].

Definition vault_host : Host :=
  host vault_names
    [("/", dir_node ["."; ".."; "vault"] 1600000000);
     ("/vault", dir_node_perm 192 ["."; ".."; "keys.dat"] 1600000000);
     ("/vault/keys.dat", file_node 384 64 1600000000 0)]
    [] [] "".

(** [game_host] with one more file in [/usr/bin], whose name [a\b]
    contains a backslash. *)
Definition backslash_names : list (string * string) :=
    game_names ++ [("/usr/bin/a\b", "/usr/bin/a\b")].

Definition backslash_host : Host :=
  host backslash_names
    [("/", dir_node ["."; ".."; "usr"; "home"] 1600000000);
     ("/usr", dir_node ["."; ".."; "bin"] 1600000000);
     ("/usr/bin",
        dir_node ["."; ".."; "mcbeta"; "resource"; "a\b"] 1600000000);
     ("/usr/bin/mcbeta", file_node 493 123456 1600000000 0);
     ("/usr/bin/resource", dir_node ["."; ".."] 1600000000);
     ("/usr/bin/a\b", file_node 420 16 1600000000 0);
     ("/home", dir_node ["."; ".."; "steve"] 1600000000);
     ("/home/steve", dir_node ["."; ".."; ".mcbeta"] 1600000000);
     ("/home/steve/.mcbeta",
        dir_node ["saves"; "."; "level.dat"; ".."; "latest"] 1650000000);
     ("/home/steve/.mcbeta/level.dat", file_node 420 2048 1650000001 987654321);
     ("/home/steve/.mcbeta/saves", dir_node ["."; ".."] 1650000000)]
    [("/proc/self/exe", "/usr/bin/mcbeta");
     ("/home/steve/.mcbeta/latest", "level.dat")]
    [("HOME", "/home/steve")]
    "/usr/bin/mcbeta".

End Tables.

(* ===================================================================== *)
(** ** Vocabulary of the properties *)
(* ===================================================================== *)

Module Laws.

Import Posix File.

(** Two states of the host with the same file system: they may differ in
    what is open and in what has been printed. *)
Definition same_files (h h' : Host) : Prop :=
  names h = names h' /\ inodes h = inodes h'.

(** A name [realpath] maps to itself. *)
Definition resolved (h : Host) (r : u8string) : Prop :=
  eval (realpath r) h = Some r.

(** What precedes the last ['/'] of a path. *)
Definition dirname (r : u8string) : u8string :=
  match find_last_of Ascii.eqb r [slash] with
  | Some i => firstn i r
  | None => []
  end.

(** What [realpath] guarantees of its answers: an answer is a resolved
    name, and the directory part of a resolved name is empty (for ["/"] and
    for the entries of the root) or resolved. *)
Record PosixNames (h : Host) : Prop := {
  realpath_resolved : forall a r, eval (realpath a) h = Some r -> resolved h r;
  dirname_resolved : forall r,
    resolved h r -> dirname r = [] \/ resolved h (dirname r)
}.

(** The resolved names are text the codec reads and writes back. *)
Definition Utf8Names {codec : Codec} (h : Host) : Prop :=
  forall r, resolved h r -> toUTF8 (fromUTF8 r) = r.

(** No resolved name contains a backslash. *)
Definition BackslashFree (h : Host) : Prop :=
  forall r, resolved h r -> ~ In backslash r.


(** The display path of the parent of an entity whose display path is
    [p] ([getParentFile] reads nothing else of the entity), and of its
    [n]-th parent. *)
Definition parent_path {codec : Codec} (h : Host) (p : jstring) : jstring :=
  path (eval (getParentFile {| path := p; u8path := [] |}) h).

Fixpoint climb {codec : Codec} (h : Host) (n : nat) (p : jstring) : jstring :=
  match n with
  | O => p
  | S n => climb h n (parent_path h p)
  end.

(** No path in the chain of parents of [p] that fails to be shorter
    than the path it is the parent of contains a backslash. (A parent is
    the text before the last separator, or what [realpath] answers for
    that text; only such an answer can fail to be shorter, when the text
    leads through a symbolic link.) *)
Definition NoBackslashLanding {codec : Codec} (h : Host) (p : jstring)
    : Prop :=
  forall n,
    (List.length (climb h n p) <= List.length (climb h (S n) p))%nat ->
    ~ In ubackslash (climb h (S n) p).

(** The entries [listFiles] keeps. *)
Definition not_dot (d_name : u8string) : bool :=
  negb (streq d_name (lit ".") || streq d_name (lit "..")).

(** What the directory an entity names holds, the two pseudo-entries
    apart: the names [readdir] would give if the directory were opened. *)
Definition directory_entries (h : Host) (this : File) : list u8string :=
  match namei h (c_str (u8path this)) with
  | Some (_, i) => filter not_dot (map c_str (i_entries i))
  | None => []
  end.

(** The child [listFiles] constructs for an entry. *)
Definition child_of {codec : Codec} (h : Host) (this : File)
    (d_name : u8string) : File :=
  eval (File_Impl (FromPath (u8path this ++ lit "/" ++ d_name))) h.

(** Decision of the two properties of names on a host whose resolution
    table has the keys [keys]. *)
Definition opt_eqb (a b : option u8string) : bool :=
  match a, b with
  | Some x, Some y => streq x y
  | None, None => true
  | _, _ => false
  end.

Definition is_resolved (h : Host) (r : u8string) : bool :=
  opt_eqb (eval (realpath r) h) (Some r).

Definition check_posix_names (h : Host) (keys : list u8string) : bool :=
  forallb (fun a =>
    match eval (realpath a) h with
    | Some r =>
        is_resolved h r &&
        (match dirname r with [] => true | d => is_resolved h d end)
    | None => true
    end) keys.

Definition check_utf8_names {codec : Codec} (h : Host) (keys : list u8string)
    : bool :=
  forallb (fun a =>
    match eval (realpath a) h with
    | Some r => streq (toUTF8 (fromUTF8 r)) r
    | None => true
    end) keys.


(** Decision, on a host whose resolution table has the keys [keys], that
    a path resolving to a name with a backslash is at least as long as
    that name. *)
Definition check_backslash_targets (h : Host) (keys : list u8string) : bool :=
  forallb (fun a =>
    match eval (realpath a) h with
    | Some r =>
        (List.length r <=? List.length a)%nat
        || negb (existsb (Ascii.eqb backslash) r)
    | None => true
    end) keys.

(** The invariant of the two members: the display path is the decoding
    of the stored path. *)
Definition well_formed {codec : Codec} (f : File) : Prop :=
  path f = FromPath (u8path f).

(** The entity of the empty path. *)
Definition empty_file : File := {| path := []; u8path := [] |}.

(** The line the constructor prints for an entity. *)
Definition open_line (f : File) : u8string := lit "Open " ++ u8path f.

(** The order of two modification times. *)
Definition not_after (a b : timespec) : Prop :=
  (tv_sec a < tv_sec b \/ (tv_sec a = tv_sec b /\ tv_nsec a <= tv_nsec b))%Z.

End Laws.

(** Entities used in the examples. *)
Module Examples.

Import File.

(** An entity for a path that names nothing on [game_host]. *)
Definition missing_file : File :=
  {| path := ulit "/home/steve/.mcbeta/missing.dat";
     u8path := lit "/home/steve/.mcbeta/missing.dat" |}.

(** The saved world of [game_host]. *)
Definition level_dat : File :=
  {| path := ulit "/home/steve/.mcbeta/level.dat";
     u8path := lit "/home/steve/.mcbeta/level.dat" |}.


(** The executable of [game_host]. *)
Definition usr_bin_mcbeta : File :=
  {| path := ulit "/usr/bin/mcbeta"; u8path := lit "/usr/bin/mcbeta" |}.

(** The directory of the saved world, and the link [latest] in it as a
    caller names it. *)
Definition dot_mcbeta : File :=
  {| path := ulit "/home/steve/.mcbeta"; u8path := lit "/home/steve/.mcbeta" |}.

(** A path in a directory that [game_host] does not have. *)
Definition orphan_file : File :=
  {| path := ulit "/home/steve/nowhere/level.dat";
     u8path := lit "/home/steve/nowhere/level.dat" |}.

(** The link [draft] of [draft_host], as a caller names it, and the
    file it points to. *)
Definition draft_link : File :=
  {| path := ulit "/home/steve/.mcbeta/draft";
     u8path := lit "/home/steve/.mcbeta/draft" |}.

Definition draft_dat : File :=
  {| path := ulit "/home/steve/.mcbeta/draft.dat";
     u8path := lit "/home/steve/.mcbeta/draft.dat" |}.

(** The directory [/vault] of [vault_host]. *)
Definition vault_dir : File :=
  {| path := ulit "/vault"; u8path := lit "/vault" |}.


(** A directory to be made on [game_host]. *)
Definition new_world : File :=
  {| path := ulit "/home/steve/.mcbeta/world";
     u8path := lit "/home/steve/.mcbeta/world" |}.

End Examples.

(* ===================================================================== *)
(** ** Strings: lemmas *)
(* ===================================================================== *)

Import Posix File Laws Tables Examples.

Unset Implicit Arguments.

Section FindLastOf.

Variable A : Type.
Variable eqb : A -> A -> bool.
Hypothesis eqb_spec : forall x y, eqb x y = true <-> x = y.

Lemma existsb_eqb_In (c : A) (chars : list A) :
  existsb (eqb c) chars = true <-> In c chars.
Proof.
  rewrite existsb_exists. split.
  - intros [x [Hin Hx]]. apply eqb_spec in Hx. now subst.
  - intros Hin. exists c. split; [assumption | now apply eqb_spec].
Qed.

(** The scan from index [i] either finds nothing and keeps [acc], or
    finds [j] in the rest and answers [i + j]. *)
Lemma find_last_of_from_shift (s chars : list A) :
  forall i acc,
    find_last_of_from eqb i acc s chars =
    match find_last_of eqb s chars with
    | Some j => Some (i + j)
    | None => acc
    end.
Proof.
  unfold find_last_of.
  induction s as [|c s IH]; intros i acc; simpl.
  - reflexivity.
  - rewrite (IH (S i)), (IH 1%nat).
    destruct (find_last_of_from eqb 0 None s chars) as [j|].
    + f_equal. lia.
    + destruct (existsb (eqb c) chars); [f_equal; lia | reflexivity].
Qed.

Lemma find_last_of_cons (c : A) (s chars : list A) :
  find_last_of eqb (c :: s) chars =
  match find_last_of eqb s chars with
  | Some j => Some (S j)
  | None => if existsb (eqb c) chars then Some 0 else None
  end.
Proof.
  unfold find_last_of at 1. simpl.
  rewrite find_last_of_from_shift.
  destruct (find_last_of eqb s chars); reflexivity.
Qed.

Lemma find_last_of_None (s chars : list A) :
  find_last_of eqb s chars = None <->
  (forall x, In x s -> ~ In x chars).
Proof.
  induction s as [|c s IH].
  - split; [intros _ x [] | reflexivity].
  - rewrite find_last_of_cons.
    destruct (find_last_of eqb s chars) as [j|] eqn:E.
    + split; [discriminate |].
      intros H. destruct IH as [_ IH].
      assert (E' : Some j = None).
      { apply IH. intros x Hx. apply H. now right. }
      discriminate.
    + destruct (existsb (eqb c) chars) eqn:Ec.
      * split; [discriminate |].
        intros H. exfalso. apply (H c); [now left |].
        now apply existsb_eqb_In.
      * split; [| reflexivity].
        intros _ x [<- | Hx].
        -- intros Hin. apply existsb_eqb_In in Hin. congruence.
        -- destruct IH as [IH _]. now apply IH.
Qed.

(** The last separator of [a ++ c :: b], when [b] holds none, is [c]. *)
Lemma find_last_of_app (a b chars : list A) (c : A) :
  In c chars ->
  (forall x, In x b -> ~ In x chars) ->
  find_last_of eqb (a ++ c :: b) chars = Some (List.length a).
Proof.
  intros Hc Hb.
  induction a as [|x a IH]; simpl.
  - rewrite find_last_of_cons.
    apply find_last_of_None in Hb. rewrite Hb.
    apply existsb_eqb_In in Hc. now rewrite Hc.
  - rewrite find_last_of_cons, IH. reflexivity.
Qed.

(** Conversely an answer [i] splits the string at a separator, after
    which there is none. *)
Lemma find_last_of_Some (s chars : list A) :
  forall i, find_last_of eqb s chars = Some i ->
  exists c, s = firstn i s ++ c :: skipn (S i) s /\ In c chars /\
            (forall x, In x (skipn (S i) s) -> ~ In x chars).
Proof.
  induction s as [|c s IH]; intros i.
  - discriminate.
  - rewrite find_last_of_cons.
    destruct (find_last_of eqb s chars) as [j|] eqn:E.
    + intros [= <-]. destruct (IH j eq_refl) as [c' [Hs [Hc Hrest]]].
      exists c'. simpl. split; [| split; assumption].
      f_equal. exact Hs.
    + destruct (existsb (eqb c) chars) eqn:Ec; [| discriminate].
      intros [= <-]. exists c. simpl. split; [reflexivity |].
      split; [now apply existsb_eqb_In |].
      now apply find_last_of_None.
Qed.

Lemma find_last_of_lt (s chars : list A) (i : nat) :
  find_last_of eqb s chars = Some i -> (i < List.length s)%nat.
Proof.
  intros H. destruct (find_last_of_Some _ _ _ H) as [c [Hs _]].
  assert (Hl : List.length s = List.length (firstn i s ++ c :: skipn (S i) s))
    by (now rewrite <- Hs).
  rewrite length_app in Hl. simpl in Hl.
  rewrite length_firstn in Hl. lia.
Qed.

End FindLastOf.

Lemma substr_0 {A} (s : list A) (n : nat) : substr s 0 n = firstn n s.
Proof. reflexivity. Qed.

Lemma firstn_length_app {A} (a b : list A) : firstn (List.length a) (a ++ b) = a.
Proof.
  induction a as [|x a IH]; simpl; [now destruct b | now rewrite IH].
Qed.

Lemma c_str_no_NUL (s : u8string) : ~ In NUL (c_str s).
Proof.
  induction s as [|c s IH]; simpl; [tauto |].
  destruct (Ascii.eqb c NUL) eqn:E; simpl; [tauto |].
  intros [H | H]; [| tauto].
  apply Ascii.eqb_neq in E. congruence.
Qed.

Lemma c_str_id (s : u8string) : ~ In NUL s -> c_str s = s.
Proof.
  induction s as [|c s IH]; simpl; [reflexivity |].
  intros H. destruct (Ascii.eqb c NUL) eqn:E.
  - apply Ascii.eqb_eq in E. tauto.
  - f_equal. apply IH. tauto.
Qed.

Lemma c_str_idem (s : u8string) : c_str (c_str s) = c_str s.
Proof. apply c_str_id, c_str_no_NUL. Qed.

Lemma streq_eq (a b : u8string) : streq a b = true <-> a = b.
Proof.
  unfold streq. destruct (list_eq_dec ascii_dec a b); split; congruence.
Qed.

Lemma streq_refl (a : u8string) : streq a a = true.
Proof. now apply streq_eq. Qed.

(* ===================================================================== *)
(** ** The host: lemmas *)
(* ===================================================================== *)

(** Unfolding of the monad, for goals about one or two calls. *)
Ltac run :=
  unfold eval, exec, bind, ret, gets, modify in *; simpl in *.

Lemma realpath_c_str (h : Host) (a r : u8string) :
  eval (realpath a) h = Some r -> c_str r = r.
Proof.
  unfold realpath. run.
  destruct (namei h a) as [[c i]|]; simpl; [| discriminate].
  intros [= <-]. apply c_str_idem.
Qed.

(** [realpath] and [stat] fail together: both resolve the path. *)
Lemma stat_realpath (h : Host) (a : u8string) :
  eval (stat a) h = None <-> eval (realpath a) h = None.
Proof.
  unfold stat, realpath. run.
  destruct (namei h a) as [[c i]|]; simpl; split; congruence.
Qed.

(* ===================================================================== *)
(** ** Construction *)
(* ===================================================================== *)

Section Construction.

Context {codec : Codec}.

Lemma ToPath_eval (h : Host) (p : jstring) :
  eval (ToPath p) h =
  match eval (realpath (c_str (toUTF8 p))) h with
  | Some r => r
  | None => toUTF8 p
  end.
Proof.
  unfold ToPath, realpath. run.
  destruct (namei h (c_str (toUTF8 p))) as [[c i]|]; simpl.
  - apply c_str_idem.
  - reflexivity.
Qed.

Lemma File_Impl_eval (h : Host) (p : jstring) :
  eval (File_Impl p) h =
  {| path := fromUTF8 (eval (ToPath p) h); u8path := eval (ToPath p) h |}.
Proof.
  unfold File_Impl, ToPath, realpath, cout. run.
  destruct (namei h (c_str (toUTF8 p))); reflexivity.
Qed.

Lemma File_Impl_exec (h : Host) (p : jstring) :
  exec (File_Impl p) h =
  set_console h (console h ++ [lit "Open " ++ eval (ToPath p) h]).
Proof.
  unfold File_Impl, ToPath, realpath, cout. run.
  destruct (namei h (c_str (toUTF8 p))); reflexivity.
Qed.

(** C2. For every path string, construction yields an entity. Its
    [u8path] is the answer of [realpath] (the absolute, symlink-resolved
    name) when [realpath] answers, which it does exactly when the path can
    be probed; otherwise it is the path as given, in the storage encoding.
    The display path is the decoding of [u8path] in both cases. *)
Theorem File_Impl_canonical_or_verbatim (h : Host) (p : jstring) :
  match eval (realpath (c_str (toUTF8 p))) h with
  | Some canonical =>
      u8path (eval (File_Impl p) h) = canonical /\
      eval (stat (c_str (toUTF8 p))) h <> None
  | None =>
      u8path (eval (File_Impl p) h) = toUTF8 p /\
      eval (stat (c_str (toUTF8 p))) h = None
  end /\
  path (eval (File_Impl p) h) = fromUTF8 (u8path (eval (File_Impl p) h)).
Proof.
  rewrite File_Impl_eval, ToPath_eval. simpl.
  split; [| reflexivity].
  destruct (eval (realpath (c_str (toUTF8 p))) h) as [r|] eqn:E.
  - split; [reflexivity |].
    intros Hs. apply stat_realpath in Hs. congruence.
  - split; [reflexivity |]. now apply stat_realpath.
Qed.

End Construction.

(* ===================================================================== *)
(** ** Metadata queries *)
(* ===================================================================== *)

Local Open Scope Z_scope.

Lemma long_t_small (z : Z) :
  -9223372036854775808 <= z < 9223372036854775808 -> long_t z = z.
Proof.
  intros H. unfold long_t.
  rewrite Z.mod_small by lia. lia.
Qed.

(** C3. When [stat] fails on the entity's path, [exists], [isDirectory]
    and [isFile] answer false, and [lastModified] and [length] answer 0;
    every query returns, and leaves the host as it was. *)
Theorem metadata_of_failed_stat (pf : Platform) (h : Host) (this : File) :
  eval (stat (c_str (u8path this))) h = None ->
  exists_ this h = (false, h) /\
  isDirectory this h = (false, h) /\
  isFile this h = (false, h) /\
  lastModified pf this h = (0, h) /\
  length this h = (0, h).
Proof.
  unfold exists_, isDirectory, isFile, lastModified, length, stat.
  run. intros E. rewrite E. repeat split; reflexivity.
Qed.

Lemma metadata_of_failed_stat_witness :
  eval (stat (c_str (u8path missing_file))) game_host = None /\
  exists_ missing_file game_host = (false, game_host) /\
  isDirectory missing_file game_host = (false, game_host) /\
  isFile missing_file game_host = (false, game_host) /\
  lastModified linux_x86_64 missing_file game_host
    = (0, game_host) /\
  length missing_file game_host = (0, game_host).
Proof.
  split; [reflexivity |].
  apply (metadata_of_failed_stat linux_x86_64 game_host missing_file).
  reflexivity.
Defined.

(** C6. When [stat] succeeds, [lastModified] is the modification time in
    milliseconds: its seconds times 1000 plus its nanoseconds divided by
    1,000,000, on both branches of the conditional compilation, for every
    time stamp whose milliseconds a [long_t] holds. *)
Theorem lastModified_milliseconds (pf : Platform) (h : Host) (this : File)
    (buffer : struct_stat) :
  eval (stat (c_str (u8path this))) h = Some buffer ->
  0 <= tv_nsec (st_mtim buffer) < 1000000000 ->
  -9223372036854775 <= tv_sec (st_mtim buffer) <= 9223372036854774 ->
  eval (lastModified pf this) h =
    tv_sec (st_mtim buffer) * 1000 + tv_nsec (st_mtim buffer) / 1000000.
Proof.
  intros E Hn Hs.
  assert (Hq : 0 <= tv_nsec (st_mtim buffer) / 1000000 < 1000).
  { split.
    - apply Z.div_pos; lia.
    - apply Z.div_lt_upper_bound; lia. }
  unfold lastModified, stat in *. run. rewrite E.
  unfold st_mtime, st_mtimespec.
  destruct (posix_2008 pf); simpl;
    rewrite Z.quot_div_nonneg by lia;
    rewrite (long_t_small (tv_sec (st_mtim buffer) * 1000)) by lia;
    apply long_t_small; lia.
Qed.

Lemma lastModified_milliseconds_witness :
  eval (lastModified linux_x86_64 level_dat) game_host
    = 1650000001 * 1000 + 987654321 / 1000000.
Proof.
  apply (lastModified_milliseconds linux_x86_64 game_host level_dat
           (i_stat (file_node 420 2048 1650000001 987654321)));
    [reflexivity | simpl; lia | simpl; lia].
Defined.

(* ===================================================================== *)
(** ** Parent and special directories *)
(* ===================================================================== *)

Local Close Scope Z_scope.

Lemma Neqb_spec (x y : N) : N.eqb x y = true <-> x = y.
Proof. apply N.eqb_eq. Qed.

Section Navigation.

Context {codec : Codec}.

Lemma getParentFile_no_separator (h : Host) (this : File) :
  ~ In uslash (path this) -> ~ In ubackslash (path this) ->
  getParentFile this h = File_Impl [] h.
Proof.
  intros Hs Hb. unfold getParentFile.
  assert (Hfree : forall x, In x (path this) -> ~ In x (ulit "/\")).
  { intros x Hx [<- | [<- | []]]; tauto. }
  unfold jstring, char16 in *.
  apply (find_last_of_None N N.eqb Neqb_spec) in Hfree.
  rewrite Hfree. reflexivity.
Qed.

(** C9. [getParentFile] cuts the display path at its last ['/'] or
    ['\']: when the path is [a], a separator [c], then a rest [b] without
    separator, the parent is the entity constructed from [a]; when the
    whole path [b] has no separator, it is the entity constructed from
    the empty path. *)
Theorem getParentFile_last_separator (h : Host) (this : File)
    (a b : jstring) (c : char16) :
  ~ In uslash b -> ~ In ubackslash b ->
  (path this = a ++ c :: b -> c = uslash \/ c = ubackslash ->
   getParentFile this h = File_Impl a h) /\
  (path this = b -> getParentFile this h = File_Impl [] h).
Proof.
  intros Hs Hb.
  assert (Hfree : forall x, In x b -> ~ In x (ulit "/\")).
  { intros x Hx [<- | [<- | []]]; tauto. }
  split.
  - intros Hp Hc. unfold getParentFile. rewrite Hp.
    unfold jstring, char16 in *.
    rewrite (find_last_of_app N N.eqb Neqb_spec a b (ulit "/\") c).
    + rewrite substr_0, firstn_length_app. reflexivity.
    + destruct Hc as [-> | ->]; simpl; tauto.
    + exact Hfree.
  - intros Hp. apply getParentFile_no_separator; rewrite Hp; assumption.
Qed.

(** C8. [openWorkingDirectory(name)] reads [HOME]. Unset, the result is
    the entity constructed from the empty path; set, it is what
    [File::open(parent, name)] constructs for a parent whose path is the
    home directory. *)
Theorem openWorkingDirectory_home (h : Host) (name : jstring) :
  openWorkingDirectory name h =
  match eval (getenv (lit "HOME")) h with
  | None => File_Impl [] h
  | Some home =>
      open_child {| path := fromUTF8 home; u8path := home |} name h
  end.
Proof.
  unfold openWorkingDirectory, open_child, getenv. run.
  destruct (environ h _) as [v|]; simpl; [| reflexivity].
  unfold FromPath. rewrite c_str_idem. reflexivity.
Qed.

End Navigation.

(** An entity whose display path uses both separators. *)
Lemma getParentFile_last_separator_witness :
  let this := {| path := ulit "/home/steve\docs"; u8path := lit "/home/steve\docs" |} in
  getParentFile (codec := ascii_codec) this game_host
    = File_Impl (codec := ascii_codec) (ulit "/home/steve") game_host /\
  getParentFile (codec := ascii_codec)
      {| path := ulit "docs"; u8path := lit "docs" |} game_host
    = File_Impl (codec := ascii_codec) [] game_host.
Proof.
  split.
  - apply (getParentFile_last_separator (codec := ascii_codec) game_host
             {| path := ulit "/home/steve\docs"; u8path := lit "/home/steve\docs" |}
             (ulit "/home/steve") (ulit "docs") ubackslash).
    + vm_compute. intuition discriminate.
    + vm_compute. intuition discriminate.
    + reflexivity.
    + right. reflexivity.
  - apply (getParentFile_last_separator (codec := ascii_codec) game_host
             {| path := ulit "docs"; u8path := lit "docs" |}
             [] (ulit "docs") uslash).
    + vm_compute. intuition discriminate.
    + vm_compute. intuition discriminate.
    + reflexivity.
Defined.

(* ===================================================================== *)
(** ** Descriptors and states with the same files *)
(* ===================================================================== *)

Local Open Scope Z_scope.

Lemma fold_max_ge (l : list Z) (x : Z) :
  In x l -> x <= fold_right Z.max 2 l.
Proof.
  induction l as [|y l IH]; simpl; [tauto |].
  intros [-> | H]; [lia |]. specialize (IH H). lia.
Qed.

Lemma fresh_not_in (l : list Z) : ~ In (fresh l) l.
Proof.
  intros H. apply fold_max_ge in H. unfold fresh in H. lia.
Qed.

Lemma fresh_nonneg (l : list Z) : 0 <= fresh l.
Proof.
  unfold fresh.
  assert (2 <= fold_right Z.max 2 l) by (induction l; simpl; lia).
  lia.
Qed.

Lemma remove_fd_not_in (fd : Z) (l : list Z) :
  ~ In fd l -> remove_fd fd l = l.
Proof.
  induction l as [|x l IH]; simpl; [reflexivity |].
  intros H. destruct (x =? fd) eqn:E; simpl.
  - apply Z.eqb_eq in E. tauto.
  - f_equal. apply IH. tauto.
Qed.

Lemma remove_fd_head (fd : Z) (l : list Z) :
  ~ In fd l -> remove_fd fd (fd :: l) = l.
Proof.
  intros H. simpl. rewrite Z.eqb_refl. simpl. now apply remove_fd_not_in.
Qed.

Local Close Scope Z_scope.

Lemma same_files_refl (h : Host) : same_files h h.
Proof. split; reflexivity. Qed.

Lemma same_files_trans (h1 h2 h3 : Host) :
  same_files h1 h2 -> same_files h2 h3 -> same_files h1 h3.
Proof. intros [A B] [C D]. split; congruence. Qed.

Lemma same_files_sym (h1 h2 : Host) : same_files h1 h2 -> same_files h2 h1.
Proof. intros [A B]. split; congruence. Qed.

Lemma namei_same_files (h h' : Host) (p : u8string) :
  same_files h h' -> namei h p = namei h' p.
Proof. intros [A B]. unfold namei. now rewrite A, B. Qed.

Lemma realpath_same_files (h h' : Host) (p : u8string) :
  same_files h h' -> eval (realpath p) h = eval (realpath p) h'.
Proof.
  intros S. unfold realpath. run. now rewrite (namei_same_files h h' p S).
Qed.

Lemma stat_same_files (h h' : Host) (p : u8string) :
  same_files h h' -> eval (stat p) h = eval (stat p) h'.
Proof.
  intros S. unfold stat. run. now rewrite (namei_same_files h h' p S).
Qed.

Section SameFiles.

Context {codec : Codec}.

Lemma ToPath_same_files (h h' : Host) (p : jstring) :
  same_files h h' -> eval (ToPath p) h = eval (ToPath p) h'.
Proof.
  intros S. rewrite !ToPath_eval.
  now rewrite (realpath_same_files h h' _ S).
Qed.

Lemma File_Impl_same_files (h h' : Host) (p : jstring) :
  same_files h h' -> eval (File_Impl p) h = eval (File_Impl p) h'.
Proof.
  intros S. rewrite !File_Impl_eval.
  now rewrite (ToPath_same_files h h' p S).
Qed.

Lemma File_Impl_keeps_files (h : Host) (p : jstring) :
  same_files h (exec (File_Impl p) h) /\
  fds (exec (File_Impl p) h) = fds h /\
  dirs (exec (File_Impl p) h) = dirs h.
Proof.
  rewrite File_Impl_exec. repeat split.
Qed.

(** The entity for the empty path: [realpath] rejects the empty string. *)
Lemma File_Impl_empty (h : Host) :
  CodecLaws codec ->
  eval (File_Impl []) h = {| path := []; u8path := [] |}.
Proof.
  intros L. rewrite File_Impl_eval, ToPath_eval.
  rewrite (toUTF8_nil L). simpl.
  unfold realpath. run.
  now rewrite (fromUTF8_nil L).
Qed.

End SameFiles.

(* ===================================================================== *)
(** ** Directory enumeration *)
(* ===================================================================== *)

Section Enumeration.

Context {codec : Codec}.

Lemma listFiles_loop_spec (h : Host) (this : File) (entries : list u8string) :
  forall (files : list File) (h1 : Host),
    same_files h h1 ->
    eval (listFiles_loop this entries files) h1
      = files ++ map (child_of h this) (filter not_dot entries) /\
    same_files h (exec (listFiles_loop this entries files) h1) /\
    fds (exec (listFiles_loop this entries files) h1) = fds h1 /\
    dirs (exec (listFiles_loop this entries files) h1) = dirs h1.
Proof.
  induction entries as [|d_name entries IH]; intros files h1 S.
  - simpl. run. rewrite app_nil_r. auto.
  - cbn [listFiles_loop filter]. unfold not_dot at 1.
    destruct (streq d_name (lit ".") || streq d_name (lit "..")); simpl negb;
      cbv iota.
    + apply IH. exact S.
    + unfold eval, exec, bind.
      destruct (File_Impl (FromPath (u8path this ++ lit "/" ++ d_name)) h1)
        as [child h2] eqn:E.
      assert (Ec : child = child_of h this d_name).
      { unfold child_of. rewrite (File_Impl_same_files h h1 _ S).
        unfold eval. now rewrite E. }
      destruct (File_Impl_keeps_files h1
                  (FromPath (u8path this ++ lit "/" ++ d_name)))
        as [S2 [F2 D2]].
      unfold exec in *. rewrite E in *. simpl in *. subst child.
      destruct (IH (files ++ [child_of h this d_name]) h2 (same_files_trans _ _ _ S S2))
        as [R [S3 [F3 D3]]].
      unfold eval, exec in *.
      rewrite R, <- app_assoc. simpl.
      repeat split; try apply S3; congruence.
Qed.

(** C7, as amended. [listFiles] answers the empty sequence for an entity
    that is not a directory, and for a directory that [opendir] does not
    open. Otherwise it answers one child per entry of the directory stream
    other than ["."] and [".."], in the order of the stream, each
    constructed from the entity's path, ['/'] and the entry's name. In
    every case the directory streams and descriptors open afterwards are
    those open before. *)
Theorem listFiles_children (h : Host) (this : File) :
  eval (listFiles this) h =
    (if eval (isDirectory this) h
     then match eval (opendir (c_str (u8path this))) h with
          | Some dir => map (child_of h this) (filter not_dot (dd_entries dir))
          | None => []
          end
     else []) /\
  dirs (exec (listFiles this) h) = dirs h /\
  fds (exec (listFiles this) h) = fds h.
Proof.
  unfold listFiles, isDirectory, stat, opendir, closedir, eval, exec, bind,
    ret, gets.
  destruct (namei h (c_str (u8path this))) as [[c i]|] eqn:En;
    cbn [option_map fst snd negb]; [| auto].
  destruct (S_ISDIR (st_mode (i_stat i))) eqn:Ed;
    cbn [option_map fst snd negb andb]; [| auto].
  rewrite En, Ed. cbn [andb].
  destruct (has (st_mode (i_stat i)) S_IRUSR) eqn:Er;
    cbn [fst snd]; [| auto].
  set (fd := fresh (fds h ++ dirs h)).
  set (h1 := set_dirs h (fd :: dirs h)).
  destruct (listFiles_loop_spec h this (map c_str (i_entries i)) [] h1
              (same_files_refl h)) as [R [S [F D]]].
  unfold eval, exec in R, S, F, D.
  cbn [dd_entries dd_fd].
  destruct (listFiles_loop this (map c_str (i_entries i)) [] h1)
    as [files h2]. cbn [fst snd app] in *.
  rewrite D. cbn [dirs h1 set_dirs existsb].
  rewrite Z.eqb_refl. cbn [orb fst snd].
  split; [exact R |]. split; [| exact F].
  cbn [dirs set_dirs].
  apply remove_fd_head.
  intros Hin. apply (fresh_not_in (fds h ++ dirs h)).
  apply in_or_app. now right.
Qed.

End Enumeration.

(** C7, refuted as stated. [/vault] on [vault_host] is a directory of
    mode 0300 that holds the file [keys.dat]. The entity [File::open]
    constructs for it is a directory, [opendir] answers the null pointer
    for want of the permission to read, and [listFiles] answers the empty
    sequence, not one child per entry. *)
Lemma listFiles_unreadable_directory :
  eval (File.open (codec := ascii_codec) (ulit "/vault")) vault_host
    = vault_dir /\
  eval (isDirectory vault_dir) vault_host = true /\
  directory_entries vault_host vault_dir = [lit "keys.dat"] /\
  eval (opendir (c_str (u8path vault_dir))) vault_host = None /\
  eval (listFiles (codec := ascii_codec) vault_dir) vault_host = [].
Proof.
  repeat split.
Qed.

(* ===================================================================== *)
(** ** Creation and output streams *)
(* ===================================================================== *)

Local Open Scope Z_scope.

Lemma namei_set_fds (h : Host) (l : list Z) (p : u8string) :
  namei (set_fds h l) p = namei h p.
Proof. reflexivity. Qed.

(** The permission bit [2 ^ k] of a mode. *)
Lemma has_bit (x k : Z) : 0 <= k -> has x (2 ^ k) = Z.testbit x k.
Proof.
  intros Hk. unfold has.
  assert (E : Z.land x (2 ^ k) = if Z.testbit x k then 2 ^ k else 0).
  { apply Z.bits_inj'. intros n Hn.
    rewrite Z.land_spec, Z.pow2_bits_eqb by exact Hk.
    destruct (Z.eqb_spec k n) as [<- | Hne].
    - rewrite andb_true_r.
      destruct (Z.testbit x k);
        [now rewrite Z.pow2_bits_true | now rewrite Z.bits_0].
    - rewrite andb_false_r.
      destruct (Z.testbit x k); [| now rewrite Z.bits_0].
      rewrite Z.pow2_bits_eqb by exact Hk.
      symmetry. now apply Z.eqb_neq. }
  rewrite E. destruct (Z.testbit x k); [| reflexivity].
  assert (0 < 2 ^ k) by (apply Z.pow_pos_nonneg; lia).
  destruct (Z.eqb_spec (2 ^ k) 0); [lia | reflexivity].
Qed.

(** The mode of a node that was made: the file-creation mask takes
    permission bits away and leaves the type. *)
Lemma made_mode_type (type mode mask : Z) :
  Z.land (Z.lor type (Z.ldiff (Z.land mode 4095) mask)) S_IFMT
  = Z.land type S_IFMT.
Proof.
  apply Z.bits_inj'. intros n Hn.
  rewrite !Z.land_spec, Z.lor_spec, Z.ldiff_spec, Z.land_spec.
  assert (E : Z.testbit 4095 n && Z.testbit S_IFMT n = false).
  { rewrite <- Z.land_spec. change (Z.land 4095 S_IFMT) with 0.
    apply Z.bits_0. }
  destruct (Z.testbit type n), (Z.testbit mode n), (Z.testbit 4095 n),
    (Z.testbit mask n), (Z.testbit S_IFMT n); simpl in *; congruence.
Qed.

Lemma made_mode_has (type mode mask k : Z) :
  0 <= k ->
  has (Z.lor type (Z.ldiff (Z.land mode 4095) mask)) (2 ^ k)
  = Z.testbit type k
    || (Z.testbit mode k && Z.testbit 4095 k && negb (has mask (2 ^ k))).
Proof.
  intros Hk. rewrite !has_bit by exact Hk.
  now rewrite Z.lor_spec, Z.ldiff_spec, Z.land_spec.
Qed.

Lemma new_file_regular (mode mask : Z) (now : timespec) :
  S_ISREG (st_mode (i_stat (new_file mode mask now))) = true /\
  S_ISDIR (st_mode (i_stat (new_file mode mask now))) = false.
Proof.
  unfold S_ISREG, S_ISDIR. cbn [new_file i_stat st_mode].
  rewrite made_mode_type. split; reflexivity.
Qed.

Lemma new_dir_directory (mode mask : Z) (now : timespec) :
  S_ISDIR (st_mode (i_stat (new_dir mode mask now))) = true.
Proof.
  unfold S_ISDIR. cbn [new_dir i_stat st_mode].
  rewrite made_mode_type. reflexivity.
Qed.

(** A file [createNewFile] has made can be opened again for reading and
    writing exactly when the mask left its owner both permissions. *)
Lemma new_file_access (mask : Z) (now : timespec) :
  access_ok (new_file 420 mask now) (Z.lor O_CREAT O_RDWR)
  = negb (has mask S_IRUSR) && negb (has mask S_IWUSR).
Proof.
  unfold access_ok. cbn [new_file i_stat st_mode].
  change (wants_read (Z.lor O_CREAT O_RDWR)) with true.
  change (wants_write (Z.lor O_CREAT O_RDWR)) with true.
  cbn [negb orb].
  change S_IRUSR with (2 ^ 8). change S_IWUSR with (2 ^ 7).
  rewrite !made_mode_has by lia. reflexivity.
Qed.

(** A file made by [creat_at] is found again under the path it was made
    at, as an empty regular file with the bits of the mode asked for that
    the mask leaves. *)
Lemma creat_at_namei (h h1 : Host) (p : u8string) (mode : Z) :
  creat_at h p mode = Some h1 ->
  fds h1 = fds h /\
  exists c, namei h1 p = Some (c, new_file mode (umask h) (clock h)).
Proof.
  unfold creat_at.
  destruct p as [|a p]; [discriminate |].
  destruct (namei h (fst (split_last (a :: p)))); [| discriminate].
  destruct (follow_links 40 h (a :: p)) as [place|]; [| discriminate].
  destruct (namei h place); [discriminate |].
  destruct (split_last place) as [dir base].
  destruct base as [|b0 base]; [discriminate |].
  destruct (namei h dir) as [[d di]|]; [| discriminate].
  destruct (S_ISDIR (st_mode (i_stat di)) && has (st_mode (i_stat di)) S_IWUSR
            && has (st_mode (i_stat di)) S_IXUSR); [| discriminate].
  intros [= <-]. split; [reflexivity |].
  exists (join d (b0 :: base)).
  unfold namei.
  cbn [names inodes set_fs]. unfold upd, str_eqb.
  now rewrite !streq_refl.
Qed.

(** [createNewFile] in one step: what [open], the test of the descriptor
    and [close] amount to. *)
Lemma createNewFile_run (h : Host) (this : File) :
  createNewFile this h =
  match namei h (c_str (u8path this)) with
  | Some (c, i) =>
      if S_ISDIR (st_mode (i_stat i)) || negb (access_ok i (Z.lor O_CREAT O_RDWR))
      then (false, h)
      else (true, set_fds h (fds h))
  | None =>
      match creat_at h (c_str (u8path this)) 420 with
      | Some h1 => (true, set_fds h1 (fds h1))
      | None => (false, h)
      end
  end.
Proof.
  assert (Hclose : forall g : Host,
    (let fd := fresh (fds g) in
     bind (fun h0 => (fd, set_fds g (fd :: fds g)))
       (fun fd => if fd <? 0 then ret false
                  else bind (close fd) (fun _ => ret true)) h)
    = (true, set_fds g (fds g))).
  { intros g. unfold bind, ret, close. cbn zeta.
    pose proof (fresh_nonneg (fds g)) as Hn.
    destruct (fresh (fds g) <? 0) eqn:E; [apply Z.ltb_lt in E; lia |].
    cbn [fds set_fds existsb]. rewrite Z.eqb_refl. cbn [orb].
    rewrite (remove_fd_head _ _ (fresh_not_in (fds g))). reflexivity. }
  unfold createNewFile.
  unfold bind at 1. unfold Posix.open.
  destruct (namei h (c_str (u8path this))) as [[c i]|].
  - change (has (Z.lor O_CREAT O_RDWR) O_CREAT && has (Z.lor O_CREAT O_RDWR) O_EXCL)
      with false.
    change (wants_write (Z.lor O_CREAT O_RDWR)) with true.
    change (has (Z.lor O_CREAT O_RDWR) O_TRUNC) with false.
    cbn [andb]. rewrite andb_true_r.
    destruct (S_ISDIR (st_mode (i_stat i))); [reflexivity |].
    cbn [orb].
    destruct (access_ok i (Z.lor O_CREAT O_RDWR)); [| reflexivity].
    cbn [negb]. apply (Hclose h).
  - change (has (Z.lor O_CREAT O_RDWR) O_CREAT) with true. cbv iota.
    destruct (creat_at h (c_str (u8path this)) 420) as [h1|]; [| reflexivity].
    apply (Hclose h1).
Qed.

Lemma length_stat (h : Host) (this : File) :
  eval (length this) h =
  match eval (stat (c_str (u8path this))) h with
  | Some buffer => long_t (st_size buffer)
  | None => 0
  end.
Proof.
  unfold length, stat. run.
  destruct (namei h (c_str (u8path this))); reflexivity.
Qed.

(** C5, as amended. [createNewFile] leaves no descriptor open. When it
    succeeds on a path that named nothing, the path names an empty regular
    file afterwards, with the bits of 0644 that the file-creation mask
    leaves; when it succeeds on a path that named something, the length is
    what it was. A second call succeeds exactly when the path named
    something before the first, or the mask leaves the owner of a new file
    the permission to read and to write it; it never alters the length
    and leaves no descriptor open. *)
Theorem createNewFile_idempotent (h : Host) (this : File) :
  eval (createNewFile this) h = true ->
  let h1 := exec (createNewFile this) h in
  fds h1 = fds h /\
  (if eval (exists_ this) h
   then eval (length this) h1 = eval (length this) h
   else eval (isFile this) h1 = true /\ eval (length this) h1 = 0 /\
        eval (stat (c_str (u8path this))) h1 =
          Some {| st_mode := Z.lor S_IFREG (Z.ldiff 420 (umask h));
                  st_size := 0; st_mtim := clock h |}) /\
  eval (createNewFile this) h1 =
    eval (exists_ this) h
    || (negb (has (umask h) S_IRUSR) && negb (has (umask h) S_IWUSR)) /\
  eval (length this) (exec (createNewFile this) h1) = eval (length this) h1 /\
  fds (exec (createNewFile this) h1) = fds h.
Proof.
  cbv zeta. rewrite !length_stat.
  unfold eval, exec, exists_, isFile, stat, bind, gets, ret.
  rewrite (createNewFile_run h this).
  destruct (namei h (c_str (u8path this))) as [[c i]|] eqn:En.
  - destruct (S_ISDIR (st_mode (i_stat i)) ||
              negb (access_ok i (Z.lor O_CREAT O_RDWR))) eqn:E;
      cbn [fst snd]; [discriminate |].
    intros _.
    rewrite (createNewFile_run (set_fds h (fds h)) this).
    rewrite !namei_set_fds, En, E.
    cbn [fst snd option_map]. rewrite !namei_set_fds, En.
    cbn [fst snd option_map fds set_fds orb]. auto.
  - destruct (creat_at h (c_str (u8path this)) 420) as [h1|] eqn:Ec;
      cbn [fst snd]; [| discriminate].
    intros _.
    destruct (creat_at_namei _ _ _ _ Ec) as [Hf [c Hn]].
    destruct (new_file_regular 420 (umask h) (clock h)) as [Hreg Hdir].
    rewrite (createNewFile_run (set_fds h1 (fds h1)) this).
    rewrite !namei_set_fds, Hn, Hdir, new_file_access.
    cbn [fst snd option_map orb fds set_fds]. rewrite Hreg.
    split; [exact Hf |]. split; [repeat split |].
    destruct (negb (has (umask h) S_IRUSR) && negb (has (umask h) S_IWUSR));
      cbn [negb fst snd option_map];
      rewrite ?namei_set_fds, ?Hn;
      cbn [fst snd option_map fds set_fds st_size i_stat new_file];
      repeat split; exact Hf.
Qed.

Lemma createNewFile_idempotent_witness :
  eval (createNewFile missing_file) game_host = true /\
  let h1 := exec (createNewFile missing_file) game_host in
  fds h1 = fds game_host /\
  (if eval (exists_ missing_file) game_host
   then eval (length missing_file) h1 = eval (length missing_file) game_host
   else eval (isFile missing_file) h1 = true /\ eval (length missing_file) h1 = 0 /\
        eval (stat (c_str (u8path missing_file))) h1 =
          Some {| st_mode := Z.lor S_IFREG (Z.ldiff 420 (umask game_host));
                  st_size := 0; st_mtim := clock game_host |}) /\
  eval (createNewFile missing_file) h1 =
    eval (exists_ missing_file) game_host
    || (negb (has (umask game_host) S_IRUSR)
        && negb (has (umask game_host) S_IWUSR)) /\
  eval (length missing_file) (exec (createNewFile missing_file) h1)
    = eval (length missing_file) h1 /\
  fds (exec (createNewFile missing_file) h1) = fds game_host.
Proof.
  split; [reflexivity |].
  apply (createNewFile_idempotent game_host missing_file).
  reflexivity.
Defined.

(** C5, refuted as stated. Under a file-creation mask that takes the
    write permission from new files ([umask 222]), [createNewFile] on a
    path that names nothing makes the file, read-only, and answers true;
    the path exists from then on, and [createNewFile] called again on it
    answers false: [open] with [O_RDWR] is refused on a file of mode
    0444. *)
Lemma createNewFile_again_refused :
  umask read_only_mask_host = 146 /\
  eval (exists_ missing_file) read_only_mask_host = false /\
  eval (createNewFile missing_file) read_only_mask_host = true /\
  let h1 := exec (createNewFile missing_file) read_only_mask_host in
  eval (exists_ missing_file) h1 = true /\
  option_map st_mode (eval (stat (c_str (u8path missing_file))) h1)
    = Some (Z.lor S_IFREG 292) /\
  eval (createNewFile missing_file) h1 = false.
Proof.
  repeat split.
Qed.

(** [createNewFile] on a dangling symbolic link makes the file the link
    points to: on [draft_host] the new file is [draft.dat], the one new
    entry of the directory, and it is what the link resolves to from then
    on. *)
Lemma createNewFile_through_link :
  eval (exists_ draft_link) draft_host = false /\
  eval (createNewFile draft_link) draft_host = true /\
  let h1 := exec (createNewFile draft_link) draft_host in
  eval (isFile draft_dat) h1 = true /\
  eval (realpath (c_str (u8path draft_link))) h1
    = Some (lit "/home/steve/.mcbeta/draft.dat") /\
  directory_entries h1 dot_mcbeta
    = directory_entries draft_host dot_mcbeta ++ [lit "draft.dat"] /\
  links h1 = links draft_host.
Proof.
  repeat split.
Qed.

Lemma S_ISREG_not_dir (m : Z) : S_ISREG m = true -> S_ISDIR m = false.
Proof.
  unfold S_ISREG, S_ISDIR. intros H. apply Z.eqb_eq in H. rewrite H.
  reflexivity.
Qed.

(** C10. On a path that names a regular file, a [toStreamOut] that
    returns a stream has cut the file to length 0: the stream is opened
    with [out], hence as [fopen] opens for ["wb"]. The stream holds an open
    descriptor, which is now the caller's. *)
Theorem toStreamOut_truncates (h h1 : Host) (this : File)
    (os : Fstream.fstream) :
  eval (isFile this) h = true ->
  toStreamOut this h = (Some os, h1) ->
  eval (length this) h1 = 0 /\
  eval (isFile this) h1 = true /\
  exists fd, Fstream.fb_fd os = Some fd /\ In fd (fds h1) /\ ~ In fd (fds h).
Proof.
  rewrite length_stat.
  unfold eval, isFile, stat, bind, gets, ret.
  unfold toStreamOut, Fstream.ofstream, Fstream.open_stream.
  change (Fstream.fopen_flags (Z.lor Fstream.ios_binary Fstream.ios_out))
    with (Some 577).
  unfold bind at 1 2. unfold Posix.open.
  destruct (namei h (c_str (u8path this))) as [[c i]|] eqn:En;
    cbn [fst snd option_map]; [| discriminate].
  intros Hreg.
  change (has 577 O_CREAT && has 577 O_EXCL) with false.
  change (wants_write 577) with true.
  change (has 577 O_TRUNC) with true.
  rewrite (S_ISREG_not_dir _ Hreg), Hreg. cbn [andb].
  destruct (access_ok i 577); cbn [negb].
  2:{ unfold ret. cbn. discriminate. }
  set (h' := set_fs h (names h) (upd (inodes h) c (with_size i 0 (clock h)))).
  pose proof (fresh_nonneg (fds h)) as Hn.
  pose proof (fresh_not_in (fds h)) as Hfresh.
  change (fds h') with (fds h).
  destruct (fresh (fds h) <? 0) eqn:E; [apply Z.ltb_lt in E; lia |].
  unfold ret. cbn [Fstream.is_open Fstream.good Fstream.fb_fd Fstream.failbit
                   negb orb].
  intros [= <- <-].
  assert (Hn1 : namei (set_fds h' (fresh (fds h) :: fds h)) (c_str (u8path this))
                = Some (c, with_size i 0 (clock h))).
  { unfold namei in *. destruct (c_str (u8path this)) as [|a p]; [discriminate |].
    cbn [names inodes set_fds set_fs h'].
    destruct (names h (a :: p)) as [c'|]; [| discriminate].
    destruct (inodes h c') as [i'|]; [| discriminate].
    injection En as -> ->. unfold upd, str_eqb. now rewrite streq_refl. }
  rewrite Hn1. cbn [fst snd option_map i_stat with_size st_size st_mode].
  split; [reflexivity |]. split; [exact Hreg |].
  exists (fresh (fds h)). cbn [Fstream.fb_fd fds set_fds].
  split; [reflexivity |]. split; [now left | exact Hfresh].
Qed.

Lemma toStreamOut_truncates_witness :
  eval (isFile level_dat) game_host = true /\
  eval (length level_dat) game_host = 2048 /\
  eval (length level_dat) (exec (toStreamOut level_dat) game_host) = 0.
Proof.
  split; [reflexivity |]. split; [reflexivity |].
  apply (toStreamOut_truncates game_host
           (exec (toStreamOut level_dat) game_host) level_dat
           {| Fstream.fb_fd := Some 3; Fstream.failbit := false |});
    reflexivity.
Defined.

Local Close Scope Z_scope.

(* ===================================================================== *)
(** ** The resource directory *)
(* ===================================================================== *)

Section ResourceDirectory.

Context {codec : Codec}.

(** When the lookup of the executable's path fails, on either branch,
    the result is the entity of the empty path. *)
Lemma openResourceDirectory_lookup_failure (pf : Platform) (h : Host) :
  (if apple pf
   then (Z.of_nat (List.length (c_str (executable_path h))) + 1
         >? uint32_t (PATH_MAX pf))%Z
   else match links h (lit "/proc/self/exe") with
        | None => true
        | Some _ => false
        end) = true ->
  openResourceDirectory pf h = File_Impl [] h.
Proof.
  unfold openResourceDirectory, _NSGetExecutablePath, readlink.
  unfold bind, gets, ret.
  destruct (apple pf).
  - intros H. rewrite Z.gtb_ltb in H. apply Z.ltb_lt in H.
    destruct (Z.leb_spec
                (Z.of_nat (List.length (c_str (executable_path h))) + 1)
                (uint32_t (PATH_MAX pf))) as [Hle | Hgt]; [lia |].
    reflexivity.
  - destruct (links h (lit "/proc/self/exe")); [discriminate |].
    intros _. reflexivity.
Qed.

Lemma File_Impl_undefined (h : Host) (p : jstring) :
  undefined (snd (File_Impl p h)) = undefined h.
Proof.
  change (snd (File_Impl p h)) with (exec (File_Impl p) h).
  now rewrite File_Impl_exec.
Qed.

(** X10. The store [path[length] = '\0'] falls outside the [PATH_MAX]
    bytes of [path] exactly on the [__APPLE__] branch when
    [_NSGetExecutablePath] has answered: [length] is then still
    [PATH_MAX], one past the last byte. The Linux branch stores within
    the first [sizeof(path)] bytes, and the failure paths do not store. *)
Theorem openResourceDirectory_overrun (pf : Platform) (h : Host) :
  (0 < sizeof_pointer pf <= PATH_MAX pf)%Z ->
  (PATH_MAX pf < 4294967295)%Z ->
  undefined (exec (openResourceDirectory pf) h) =
    undefined h
    || (apple pf
        && (Z.of_nat (List.length (c_str (executable_path h))) + 1
            <=? PATH_MAX pf)%Z).
Proof.
  intros Hs Hmax.
  assert (Hu : uint32_t (PATH_MAX pf) = PATH_MAX pf).
  { unfold uint32_t. apply Z.mod_small. lia. }
  unfold openResourceDirectory, _NSGetExecutablePath, readlink, store_at.
  unfold exec, bind, gets, ret, modify. rewrite Hu.
  change (uint32_t (-1)) with 4294967295%Z.
  destruct (apple pf); cbn [andb].
  - destruct (Z.leb_spec
                (Z.of_nat (List.length (c_str (executable_path h))) + 1)
                (PATH_MAX pf)) as [Hle | Hgt]; cbn [negb Z.eqb].
    + destruct (Z.eqb_spec (PATH_MAX pf) 4294967295) as [E | _]; [lia |].
      rewrite Z.ltb_irrefl, andb_false_r.
      match goal with
      | |- context [match ?x with Some _ => _ | None => _ end] => destruct x
      end;
        rewrite File_Impl_undefined; cbn [undefined set_undefined];
        now rewrite orb_true_r.
    + rewrite Pos.eqb_refl, File_Impl_undefined. now rewrite orb_false_r.
  - rewrite orb_false_r.
    destruct (links h (lit "/proc/self/exe")) as [target|]; cbn [fst snd].
    + pose proof (firstn_le_length (Z.to_nat (sizeof_pointer pf - 1)) target)
        as Hle.
      pose proof (length_firstn (Z.to_nat (sizeof_pointer pf - 1)) target)
        as Hlen.
      set (n := Z.of_nat (List.length
                            (firstn (Z.to_nat (sizeof_pointer pf - 1)) target)))
        in *.
      assert (Hn : (0 <= n < PATH_MAX pf)%Z) by (unfold n; lia).
      assert (Hun : uint32_t n = n).
      { unfold uint32_t. apply Z.mod_small. lia. }
      rewrite Hun.
      destruct (Z.eqb_spec n 4294967295) as [E | _]; [lia |].
      destruct (Z.leb_spec 0 n) as [_ | ?]; [| lia].
      destruct (Z.ltb_spec n (PATH_MAX pf)) as [_ | ?]; [| lia].
      cbn [andb].
      match goal with
      | |- context [match ?x with Some _ => _ | None => _ end] => destruct x
      end;
        now rewrite File_Impl_undefined.
    + change (uint32_t (-1) =? 4294967295)%Z with true. cbv iota.
      now rewrite File_Impl_undefined.
Qed.

Hypothesis codec_laws : CodecLaws codec.

(** The end of the function, on the C string [p] it has read: with [p]
    cut at its last ['/'], the result is constructed from what precedes
    it and ["/resource"]. *)
Lemma resource_of_path (h : Host) (d b : u8string) :
  ~ In slash b ->
  match find_last_of N.eqb (FromPath (d ++ slash :: b)) [uslash] with
  | None => File_Impl (ulit "")
  | Some pos =>
      File_Impl (substr (FromPath (d ++ slash :: b)) 0 pos ++ ulit "/resource")
  end h = File_Impl (fromUTF8 d ++ ulit "/resource") h.
Proof.
  intros Hb. unfold FromPath.
  rewrite (fromUTF8_slash codec_laws).
  assert (Hfree : forall x, In x (fromUTF8 b) -> ~ In x [uslash]).
  { intros x Hx [<- | []].
    apply (fromUTF8_separator codec_laws) in Hx. tauto. }
  unfold jstring, char16 in *.
  rewrite (find_last_of_app N N.eqb Neqb_spec _ _ [uslash] uslash
             (or_introl eq_refl) Hfree).
  now rewrite substr_0, firstn_length_app.
Qed.

(** X11. The Linux branch reads at most 7 bytes of the link
    [/proc/self/exe] ([sizeof] of a pointer, less one): the result is the
    entity constructed from the directory part of that prefix and
    ["/resource"], whatever follows the seventh byte. *)
Lemma openResourceDirectory_linux (h : Host) (target d b : u8string) :
  links h (lit "/proc/self/exe") = Some target ->
  c_str (firstn 7 target) = d ++ slash :: b ->
  ~ In slash b ->
  openResourceDirectory linux_x86_64 h
    = File_Impl (fromUTF8 d ++ ulit "/resource") h.
Proof.
  intros Hl Hp Hb.
  unfold openResourceDirectory, readlink, bind, gets, ret.
  cbn [apple linux_x86_64 sizeof_pointer]. rewrite Hl.
  change (Z.to_nat (8 - 1)) with 7%nat. cbn [fst snd].
  pose proof (firstn_le_length 7 target) as Hle.
  assert (Hu : uint32_t (Z.of_nat (List.length (firstn 7 target)))
               = Z.of_nat (List.length (firstn 7 target))).
  { unfold uint32_t. apply Z.mod_small. lia. }
  rewrite Hu.
  destruct (Z.eqb_spec (Z.of_nat (List.length (firstn 7 target)))
              (uint32_t (-1))) as [E | _].
  { change (uint32_t (-1)) with 4294967295%Z in E. lia. }
  unfold store_at, modify. cbn [PATH_MAX linux_x86_64].
  destruct (Z.leb_spec 0 (Z.of_nat (List.length (firstn 7 target))))
    as [_ | ?]; [| lia].
  destruct (Z.ltb_spec (Z.of_nat (List.length (firstn 7 target))) 4096)
    as [_ | ?]; [| lia].
  cbn [andb].
  rewrite Nat2Z.id, firstn_all, Hp.
  now apply resource_of_path.
Qed.

End ResourceDirectory.

(** C1, evaluated. With the game at [/usr/bin/mcbeta], the Linux branch
    asks [readlink] for [sizeof(path) - 1] bytes, where [path] is a
    [char*]: it reads ["/usr/bi"], cuts at the last ['/'] and answers
    [/usr/resource]. The directory next to the executable is
    [/usr/bin/resource], which is what the [__APPLE__] branch computes on
    the same machine (in a run that gets past its store one byte beyond
    the buffer). *)
Theorem openResourceDirectory_linux_truncated :
  eval (readlink (lit "/proc/self/exe") (sizeof_pointer linux_x86_64 - 1))
       game_host = (7%Z, lit "/usr/bi") /\
  path (eval (openResourceDirectory (codec := ascii_codec) linux_x86_64)
             game_host) = ulit "/usr/resource" /\
  path (eval (openResourceDirectory (codec := ascii_codec) linux_x86_64)
             game_host) <> ulit "/usr/bin/resource" /\
  path (eval (openResourceDirectory (codec := ascii_codec) macos_arm64)
             game_host) = ulit "/usr/bin/resource".
Proof.
  repeat split; try reflexivity.
  vm_compute. discriminate.
Qed.

(* ===================================================================== *)
(** ** Repeated [getParentFile] *)
(* ===================================================================== *)


(** The single-byte codec has the properties asked of a codec. *)
Lemma ascii_codec_laws : CodecLaws ascii_codec.
Proof.
  constructor; simpl.
  - reflexivity.
  - reflexivity.
  - intros a b. rewrite map_app. reflexivity.
  - intros x. split; intros H; apply in_map_iff in H;
      destruct H as [c [Hc Hin]];
      [ replace slash with c | replace backslash with c ]; try assumption;
      rewrite <- (ascii_N_embedding c), Hc; reflexivity.
  - intros s. rewrite !length_map. apply le_n.
Qed.

Lemma ascii_codec_roundtrip (r : u8string) :
  toUTF8 (Codec := ascii_codec) (fromUTF8 (Codec := ascii_codec) r) = r.
Proof.
  simpl. rewrite map_map. rewrite <- (map_id r) at 2.
  apply map_ext. intros c. apply ascii_N_embedding.
Qed.

(** A host answers [realpath] only for the keys of its table. *)
Lemma assoc_In {B} (tbl : list (u8string * B)) (q : u8string) (v : B) :
  Tables.assoc tbl q = Some v -> In q (map fst tbl).
Proof.
  unfold Tables.assoc.
  destruct (find (fun kv => str_eqb q (fst kv)) tbl) as [kv|] eqn:E;
    [| discriminate].
  intros _. apply find_some in E. destruct E as [Hin Heq].
  apply streq_eq in Heq. subst q. now apply in_map.
Qed.

Lemma host_keys (names : list (string * string)) inodes links env exe
    (a c : u8string) :
  Posix.names (host names inodes links env exe) a = Some c ->
  In a (keys_of names).
Proof.
  simpl. intros H. apply assoc_In in H.
  unfold keys_of. rewrite map_map in H. exact H.
Qed.

Section Checks.

Variable h : Host.
Variable keys : list u8string.
Hypothesis keys_complete : forall a c, names h a = Some c -> In a keys.

Lemma realpath_key (a r : u8string) :
  eval (realpath a) h = Some r -> In a keys.
Proof.
  unfold realpath. run. unfold namei.
  destruct a as [|x a]; [discriminate |].
  destruct (names h (x :: a)) as [c|] eqn:E; [| discriminate].
  intros _. exact (keys_complete _ _ E).
Qed.

Lemma is_resolved_spec (r : u8string) :
  is_resolved h r = true -> resolved h r.
Proof.
  unfold is_resolved, resolved.
  destruct (eval (realpath r) h) as [x|]; simpl; [| discriminate].
  intros H. apply streq_eq in H. now subst.
Qed.

Lemma check_posix_names_sound :
  check_posix_names h keys = true -> PosixNames h.
Proof.
  unfold check_posix_names. rewrite forallb_forall. intros H.
  constructor.
  - intros a r E. specialize (H a (realpath_key _ _ E)).
    rewrite E in H. apply andb_prop in H. now apply is_resolved_spec.
  - intros r E. specialize (H r (realpath_key _ _ E)).
    unfold resolved in E. rewrite E in H.
    apply andb_prop in H. destruct H as [_ H].
    destruct (dirname r) as [|x d]; [now left | right].
    now apply is_resolved_spec.
Qed.

Lemma check_utf8_names_sound {codec : Codec} :
  check_utf8_names h keys = true -> Utf8Names h.
Proof.
  unfold check_utf8_names. rewrite forallb_forall. intros H r E.
  specialize (H r (realpath_key _ _ E)).
  unfold resolved in E. rewrite E in H. now apply streq_eq.
Qed.

End Checks.

Section Climbing.

Context {codec : Codec}.
Variable h : Host.




Lemma climb_add (n m : nat) :
  forall p, climb h (n + m) p = climb h m (climb h n p).
Proof.
  induction n as [|n IH]; intros p; [reflexivity |].
  cbn [Nat.add climb]. apply IH.
Qed.

Lemma parent_path_File_Impl (p s : jstring) (i : nat) :
  find_last_of N.eqb p (ulit "/\") = Some i ->
  s = firstn i p ->
  parent_path h p = fromUTF8 (eval (ToPath s) h).
Proof.
  intros E ->. unfold parent_path, getParentFile. cbn [path].
  rewrite E, substr_0, File_Impl_eval. reflexivity.
Qed.

Hypothesis codec_laws : CodecLaws codec.

Lemma parent_path_no_separator (p : jstring) :
  ~ In uslash p -> ~ In ubackslash p -> parent_path h p = [].
Proof.
  intros Hs Hb. unfold parent_path, eval.
  rewrite (getParentFile_no_separator h {| path := p; u8path := [] |} Hs Hb).
  change (path (eval (File_Impl []) h) = []).
  now rewrite (File_Impl_empty h codec_laws).
Qed.


Lemma climb_S (n : nat) (p : jstring) :
  climb h (S n) p = parent_path h (climb h n p).
Proof.
  replace (S n) with (n + 1)%nat by lia. now rewrite climb_add.
Qed.



Hypothesis posix_names : PosixNames h.
Hypothesis utf8_names : Utf8Names h.


(** From any path, one step leads to the empty path, to a resolved name,
    or to a shorter path. *)
Lemma parent_path_any (p : jstring) :
  parent_path h p = [] \/
  (exists r, resolved h r /\ parent_path h p = fromUTF8 r) \/
  (List.length (parent_path h p) < List.length p)%nat.
Proof.
  destruct (find_last_of N.eqb p (ulit "/\")) as [i|] eqn:E.
  - rewrite (parent_path_File_Impl p (firstn i p) i E eq_refl).
    rewrite ToPath_eval.
    destruct (eval (realpath (c_str (toUTF8 (firstn i p)))) h) as [r|] eqn:Er.
    + right. left. exists r. split; [| reflexivity].
      exact (realpath_resolved posix_names _ Er).
    + right. right.
      pose proof (find_last_of_lt N N.eqb Neqb_spec p _ i E) as Hlt.
      pose proof (roundtrip_length codec_laws (firstn i p)) as Hle.
      rewrite length_firstn in Hle. unfold jstring, char16 in *. lia.
  - left.
    pose proof (proj1 (find_last_of_None N N.eqb Neqb_spec p (ulit "/\")) E)
      as E'.
    apply parent_path_no_separator; intros Hin; apply (E' _ Hin); simpl; tauto.
Qed.

(** On a host none of whose resolved names contains a backslash, no
    chain of parents lands on one. *)
Lemma BackslashFree_no_landing (p : jstring) :
  BackslashFree h -> NoBackslashLanding h p.
Proof.
  intros B n Hlen Hin. rewrite climb_S in Hlen, Hin.
  destruct (parent_path_any (climb h n p)) as [E | [[r [Hr E]] | Hlt]].
  - rewrite E in Hin. exact Hin.
  - rewrite E in Hin. apply (fromUTF8_separator codec_laws) in Hin.
    exact (B r Hr Hin).
  - unfold jstring, char16 in *. lia.
Qed.



End Climbing.

Lemma c_str_length (s : u8string) :
  (List.length (c_str s) <= List.length s)%nat.
Proof.
  induction s as [|c s IH]; [apply le_n |].
  simpl. destruct (Ascii.eqb c NUL); simpl; lia.
Qed.

(** With single-byte text, a host on which only paths at least as long
    lead to the names with a backslash has no chain of parents that lands
    on one: a parent that is a resolved name is what [realpath] answered
    for a piece of the path before. *)
Lemma check_backslash_targets_sound (h : Host) (keys : list u8string) :
  (forall a c, names h a = Some c -> In a keys) ->
  check_backslash_targets h keys = true ->
  forall p, NoBackslashLanding (codec := ascii_codec) h p.
Proof.
  intros Hkeys Hc p n Hlen Hin.
  unfold check_backslash_targets in Hc. rewrite forallb_forall in Hc.
  rewrite (climb_S (codec := ascii_codec) h) in Hlen, Hin.
  set (q := climb (codec := ascii_codec) h n p) in *.
  destruct (find_last_of N.eqb q (ulit "/\")) as [i|] eqn:E.
  - rewrite (parent_path_File_Impl h q (firstn i q) i E eq_refl) in Hlen, Hin.
    rewrite ToPath_eval in Hlen, Hin.
    pose proof (find_last_of_lt N N.eqb Neqb_spec q _ i E) as Hlt.
    pose proof (c_str_length (toUTF8 (Codec := ascii_codec) (firstn i q)))
      as Hcl.
    assert (Hi : List.length (toUTF8 (Codec := ascii_codec) (firstn i q)) = i).
    { simpl. rewrite length_map, length_firstn.
      unfold jstring, char16 in *. lia. }
    destruct (eval (realpath (c_str (toUTF8 (Codec := ascii_codec)
                                       (firstn i q)))) h) as [r|] eqn:Er.
    + specialize (Hc _ (realpath_key h keys Hkeys _ _ Er)).
      rewrite Er in Hc. apply orb_prop in Hc.
      simpl fromUTF8 in Hlen, Hin. rewrite length_map in Hlen.
      destruct Hc as [Hs | Hb].
      * apply Nat.leb_le in Hs. unfold jstring, char16 in *. lia.
      * apply negb_true_iff in Hb.
        assert (existsb (Ascii.eqb backslash) r = true); [| congruence].
        apply existsb_exists. exists backslash. split; [| apply Ascii.eqb_refl].
        apply (fromUTF8_separator ascii_codec_laws). exact Hin.
    + simpl fromUTF8 in Hlen. rewrite !length_map, length_firstn in Hlen.
      unfold jstring, char16 in *. lia.
  - pose proof (proj1 (find_last_of_None N N.eqb Neqb_spec q (ulit "/\")) E)
      as E'.
    rewrite (parent_path_no_separator h ascii_codec_laws q) in Hin;
      [exact Hin | |]; intros Hq; apply (E' _ Hq); simpl; tauto.
Qed.

(** [backslash_host] has a resolved name with a backslash, and every
    chain of parents on it satisfies the condition of the amended claim. *)
Lemma backslash_host_no_landing :
  ~ BackslashFree backslash_host /\
  forall p, NoBackslashLanding (codec := ascii_codec) backslash_host p.
Proof.
  split.
  - intros B. apply (B (lit "/usr/bin/a\b")); [reflexivity |].
    vm_compute. tauto.
  - apply (check_backslash_targets_sound backslash_host
             (keys_of backslash_names)).
    + apply host_keys.
    + vm_compute. reflexivity.
Qed.





(* ===================================================================== *)
(** ** Further properties: probes *)
(* ===================================================================== *)

Local Open Scope Z_scope.

(** X1. One probe never answers both [isDirectory] and [isFile], and
    whatever is a directory or a file exists: the three answers come from
    the same [stat]. *)
Theorem isDirectory_isFile_exclusive (h : Host) (this : File) :
  eval (isDirectory this) h && eval (isFile this) h = false /\
  implb (eval (isDirectory this) h || eval (isFile this) h)
        (eval (exists_ this) h) = true.
Proof.
  unfold isDirectory, isFile, exists_, stat, eval, bind, gets, ret.
  destruct (namei h (c_str (u8path this))) as [[c i]|];
    cbn [option_map fst snd]; [| split; reflexivity].
  split.
  - unfold S_ISDIR, S_ISREG.
    destruct (Z.eqb_spec (Z.land (st_mode (i_stat i)) S_IFMT) S_IFDIR) as [E|];
      [| reflexivity].
    rewrite E. reflexivity.
  - apply implb_true_iff. reflexivity.
Qed.

(** X2. [lastModified] keeps the order of modification times: a file
    modified no later than another has a [lastModified] no greater, for
    time stamps whose milliseconds a [long_t] holds. *)
Theorem lastModified_monotone (pf : Platform) (h1 h2 : Host)
    (f1 f2 : File) (b1 b2 : struct_stat) :
  eval (stat (c_str (u8path f1))) h1 = Some b1 ->
  eval (stat (c_str (u8path f2))) h2 = Some b2 ->
  0 <= tv_nsec (st_mtim b1) < 1000000000 ->
  0 <= tv_nsec (st_mtim b2) < 1000000000 ->
  -9223372036854775 <= tv_sec (st_mtim b1) <= 9223372036854774 ->
  -9223372036854775 <= tv_sec (st_mtim b2) <= 9223372036854774 ->
  not_after (st_mtim b1) (st_mtim b2) ->
  eval (lastModified pf f1) h1 <= eval (lastModified pf f2) h2.
Proof.
  intros E1 E2 Hn1 Hn2 Hs1 Hs2 Hle.
  assert (Hq : forall b, 0 <= tv_nsec (st_mtim b) < 1000000000 ->
                         0 <= tv_nsec (st_mtim b) / 1000000 < 1000).
  { intros b Hb. split.
    - apply Z.div_pos; lia.
    - apply Z.div_lt_upper_bound; lia. }
  pose proof (Hq b1 Hn1) as Hq1. pose proof (Hq b2 Hn2) as Hq2.
  assert (Hv : forall f hh b,
    eval (stat (c_str (u8path f))) hh = Some b ->
    0 <= tv_nsec (st_mtim b) < 1000000000 ->
    -9223372036854775 <= tv_sec (st_mtim b) <= 9223372036854774 ->
    eval (lastModified pf f) hh
      = tv_sec (st_mtim b) * 1000 + tv_nsec (st_mtim b) / 1000000).
  { intros f hh b E Hn Hs. pose proof (Hq b Hn) as Hqb.
    unfold lastModified, stat in *. run. rewrite E.
    unfold st_mtime, st_mtimespec.
    destruct (posix_2008 pf); simpl;
      rewrite Z.quot_div_nonneg by lia;
      rewrite (long_t_small (tv_sec (st_mtim b) * 1000)) by lia;
      apply long_t_small; lia. }
  rewrite (Hv f1 h1 b1 E1 Hn1 Hs1), (Hv f2 h2 b2 E2 Hn2 Hs2).
  destruct Hle as [Hlt | [Heq Hns]].
  - lia.
  - rewrite Heq.
    assert (tv_nsec (st_mtim b1) / 1000000 <= tv_nsec (st_mtim b2) / 1000000)
      by (apply Z.div_le_mono; lia).
    lia.
Qed.

Lemma lastModified_monotone_witness :
  eval (lastModified linux_x86_64 usr_bin_mcbeta) game_host
    <= eval (lastModified linux_x86_64 level_dat) game_host.
Proof.
  apply (lastModified_monotone linux_x86_64 game_host game_host
           usr_bin_mcbeta level_dat
           (i_stat (file_node 493 123456 1600000000 0))
           (i_stat (file_node 420 2048 1650000001 987654321)));
    try reflexivity; try (simpl; lia).
  left. simpl. lia.
Defined.

Local Close Scope Z_scope.

(* ===================================================================== *)
(** ** Further properties: entities *)
(* ===================================================================== *)

Section Entities.

Context {codec : Codec}.

Lemma File_Impl_well_formed (h : Host) (p : jstring) :
  well_formed (eval (File_Impl p) h).
Proof. rewrite File_Impl_eval. reflexivity. Qed.

Lemma listFiles_loop_well_formed (this : File) (entries : list u8string) :
  forall (files : list File) (h : Host),
    Forall well_formed files ->
    Forall well_formed (eval (listFiles_loop this entries files) h).
Proof.
  induction entries as [|d_name entries IH]; intros files h Hf.
  - exact Hf.
  - cbn [listFiles_loop].
    destruct (streq d_name (lit ".") || streq d_name (lit ".."));
      [now apply IH |].
    unfold eval, bind.
    pose proof (File_Impl_well_formed h
                  (FromPath (u8path this ++ lit "/" ++ d_name))) as Hc.
    unfold eval in Hc.
    destruct (File_Impl (FromPath (u8path this ++ lit "/" ++ d_name)) h)
      as [child h1].
    apply IH. apply Forall_app. split; [exact Hf |].
    constructor; [exact Hc | constructor].
Qed.

(** X3. Every entity the code hands out keeps the invariant of its two
    members, the display path being the decoding of the stored path:
    those of [File::open] in both forms, of [getParentFile], of the two
    special directories, and every child of [listFiles]. *)
Theorem handed_out_well_formed (pf : Platform) (h : Host) (this : File)
    (p : jstring) :
  well_formed (eval (File.open p) h) /\
  well_formed (eval (open_child this p) h) /\
  well_formed (eval (getParentFile this) h) /\
  well_formed (eval (openResourceDirectory pf) h) /\
  well_formed (eval (openWorkingDirectory p) h) /\
  Forall well_formed (eval (listFiles this) h).
Proof.
  repeat split.
  - apply File_Impl_well_formed.
  - apply File_Impl_well_formed.
  - unfold getParentFile.
    destruct (find_last_of N.eqb (path this) (ulit "/\"));
      apply File_Impl_well_formed.
  - unfold openResourceDirectory, _NSGetExecutablePath, readlink, eval, bind,
      gets, ret.
    destruct (apple pf).
    + destruct (Z.leb (Z.of_nat (List.length (c_str (executable_path h))) + 1)
                  (uint32_t (PATH_MAX pf))); cbn [negb Z.eqb fst snd].
      * destruct (Z.eqb (uint32_t (PATH_MAX pf)) (uint32_t (-1)));
          [apply File_Impl_well_formed |].
        destruct (find_last_of N.eqb _ [uslash]); apply File_Impl_well_formed.
      * apply File_Impl_well_formed.
    + destruct (links h (lit "/proc/self/exe")) as [target|]; cbn [fst snd].
      * destruct (Z.eqb _ (uint32_t (-1))); [apply File_Impl_well_formed |].
        destruct (find_last_of N.eqb _ [uslash]); apply File_Impl_well_formed.
      * apply File_Impl_well_formed.
  - unfold openWorkingDirectory, getenv, eval, bind, gets.
    destruct (option_map c_str (environ h (lit "HOME")));
      apply File_Impl_well_formed.
  - unfold listFiles, isDirectory, stat, opendir, closedir, eval, bind, gets,
      ret.
    destruct (namei h (c_str (u8path this))) as [[c i]|] eqn:En;
      cbn [option_map fst snd negb]; [| constructor].
    destruct (S_ISDIR (st_mode (i_stat i))) eqn:Ed;
      cbn [negb]; [| constructor].
    rewrite En, Ed. cbn [andb].
    destruct (has (st_mode (i_stat i)) S_IRUSR); cbn [fst snd];
      [| constructor].
    cbn [dd_entries].
    pose proof (listFiles_loop_well_formed this (map c_str (i_entries i)) []
                  (set_dirs h (fresh (fds h ++ dirs h) :: dirs h))
                  (Forall_nil _)) as Hl.
    unfold eval in Hl.
    destruct (listFiles_loop this (map c_str (i_entries i)) []
                (set_dirs h (fresh (fds h ++ dirs h) :: dirs h)))
      as [files h2].
    cbn [fst snd] in *.
    destruct (existsb (Z.eqb _) (dirs h2)); exact Hl.
Qed.

End Entities.

Section Reopening.

Context {codec : Codec}.

(** The entity of a resolved name, written out. *)
Lemma File_Impl_resolved (h : Host) (r : u8string) :
  resolved h r -> toUTF8 (fromUTF8 r) = r ->
  eval (File_Impl (fromUTF8 r)) h = {| path := fromUTF8 r; u8path := r |}.
Proof.
  intros Hr Hu. rewrite File_Impl_eval, ToPath_eval, Hu.
  rewrite (realpath_c_str h r r Hr). unfold resolved in Hr.
  now rewrite Hr.
Qed.

(** X4. An entity whose path resolved can be opened again by its display
    path: the result is the same entity. Canonicalisation is done once and
    for all. *)
Theorem File_Impl_reopen (h : Host) (p : jstring) :
  PosixNames h -> Utf8Names h ->
  eval (realpath (c_str (toUTF8 p))) h <> None ->
  eval (File_Impl (path (eval (File_Impl p) h))) h = eval (File_Impl p) h.
Proof.
  intros P U Hr.
  rewrite (File_Impl_eval h p), ToPath_eval. cbn [path].
  destruct (eval (realpath (c_str (toUTF8 p))) h) as [r|] eqn:E;
    [| congruence].
  pose proof (realpath_resolved P _ E) as Hres.
  apply File_Impl_resolved; [exact Hres | exact (U r Hres)].
Qed.

Hypothesis codec_laws : CodecLaws codec.

(** The parent of an entity whose display path is a resolved directory
    name [r], ['/'] and a name without separator, is the entity of [r]. *)
Lemma getParentFile_joined (h : Host) (this : File) (r name : u8string) :
  resolved h r -> toUTF8 (fromUTF8 r) = r ->
  ~ In slash name -> ~ In backslash name ->
  path this = fromUTF8 (r ++ slash :: name) ->
  eval (getParentFile this) h = {| path := fromUTF8 r; u8path := r |}.
Proof.
  intros Hr Hu Hs Hb Hp. unfold getParentFile. rewrite Hp.
  rewrite (fromUTF8_slash codec_laws).
  assert (Hfree : forall x, In x (fromUTF8 name) -> ~ In x (ulit "/\")).
  { intros x Hx [<- | [<- | []]];
      apply (fromUTF8_separator codec_laws) in Hx; tauto. }
  unfold jstring, char16 in *.
  rewrite (find_last_of_app N N.eqb Neqb_spec _ _ (ulit "/\") uslash
             (or_introl eq_refl) Hfree).
  rewrite substr_0, firstn_length_app.
  now apply File_Impl_resolved.
Qed.

(** X5. Listing and going up are inverse on plain entries: for a
    directory entity of resolved name [r] and an entry [name] such that
    [r/name] is itself a resolved name (the entry is no link to another
    place), the child [listFiles] constructs is the entity of [r/name],
    and its parent is the directory entity again. *)
Theorem listFiles_child_parent (h : Host) (r name : u8string) :
  Utf8Names h ->
  resolved h r -> resolved h (r ++ slash :: name) ->
  ~ In slash name -> ~ In backslash name ->
  child_of h {| path := fromUTF8 r; u8path := r |} name
    = {| path := fromUTF8 (r ++ slash :: name);
         u8path := r ++ slash :: name |} /\
  eval (getParentFile
          (child_of h {| path := fromUTF8 r; u8path := r |} name)) h
    = {| path := fromUTF8 r; u8path := r |}.
Proof.
  intros U Hr Hc Hs Hb.
  assert (E : child_of h {| path := fromUTF8 r; u8path := r |} name
              = {| path := fromUTF8 (r ++ slash :: name);
                   u8path := r ++ slash :: name |}).
  { unfold child_of, FromPath. cbn [u8path].
    change (r ++ lit "/" ++ name) with (r ++ slash :: name).
    apply File_Impl_resolved; [exact Hc | exact (U _ Hc)]. }
  split; [exact E |].
  rewrite E.
  apply (getParentFile_joined h _ r name Hr (U r Hr) Hs Hb). reflexivity.
Qed.

(** X6. Going up stops at the entity of the empty path, not at the root
    directory: an entity whose path has no separator, or none but its
    first character (["/"] itself, ["/usr"]), has the empty entity as
    parent, on every host. The empty entity is its own parent. *)
Theorem getParentFile_floor (h : Host) (this : File) (c : char16)
    (b : jstring) :
  ~ In uslash b -> ~ In ubackslash b ->
  path this = b \/ (path this = c :: b /\ (c = uslash \/ c = ubackslash)) ->
  eval (getParentFile this) h = empty_file.
Proof.
  intros Hs Hb Hp.
  assert (Hfree : forall x, In x b -> ~ In x (ulit "/\")).
  { intros x Hx [<- | [<- | []]]; tauto. }
  destruct Hp as [Hp | [Hp Hc]].
  - unfold eval.
    rewrite (getParentFile_no_separator h this); try (rewrite Hp; assumption).
    apply (File_Impl_empty h codec_laws).
  - unfold getParentFile. rewrite Hp.
    assert (Hin : In c (ulit "/\")) by (destruct Hc as [-> | ->]; simpl; tauto).
    pose proof (find_last_of_app N N.eqb Neqb_spec [] b (ulit "/\") c Hin Hfree)
      as E.
    cbn [app List.length] in E.
    unfold jstring, char16 in *. rewrite E.
    apply (File_Impl_empty h codec_laws).
Qed.

(** X7. A [HOME] that is set but empty is not treated as unset: the
    working directory is then [/name], an entry of the root directory. *)
Theorem openWorkingDirectory_empty_home (h : Host) (name : jstring)
    (home : u8string) :
  environ h (lit "HOME") = Some home -> c_str home = [] ->
  openWorkingDirectory name h = File_Impl (uslash :: name) h.
Proof.
  intros Hh He. unfold openWorkingDirectory, getenv, bind, gets.
  rewrite Hh. cbn [option_map]. rewrite He. cbn [c_str].
  unfold FromPath. rewrite (fromUTF8_nil codec_laws). reflexivity.
Qed.

End Reopening.

(** [game_host] is a host as [realpath] promises, with names the
    single-byte codec writes back. *)
Lemma game_host_posix : PosixNames game_host.
Proof.
  apply (check_posix_names_sound game_host (keys_of game_names)).
  - apply host_keys.
  - vm_compute. reflexivity.
Qed.

Lemma game_host_utf8 : Utf8Names (codec := ascii_codec) game_host.
Proof.
  apply (check_utf8_names_sound game_host (keys_of game_names)).
  - apply host_keys.
  - vm_compute. reflexivity.
Qed.

Lemma File_Impl_reopen_witness :
  path (eval (File_Impl (codec := ascii_codec)
                (ulit "/home/steve/.mcbeta/latest")) game_host)
    = ulit "/home/steve/.mcbeta/level.dat" /\
  eval (File_Impl (codec := ascii_codec)
          (path (eval (File_Impl (codec := ascii_codec)
                         (ulit "/home/steve/.mcbeta/latest")) game_host)))
       game_host
    = eval (File_Impl (codec := ascii_codec)
              (ulit "/home/steve/.mcbeta/latest")) game_host.
Proof.
  split; [reflexivity |].
  apply (File_Impl_reopen (codec := ascii_codec) game_host
           (ulit "/home/steve/.mcbeta/latest")
           game_host_posix game_host_utf8).
  vm_compute. discriminate.
Defined.

Lemma listFiles_child_parent_witness :
  child_of (codec := ascii_codec) game_host dot_mcbeta (lit "saves")
    = {| path := ulit "/home/steve/.mcbeta/saves";
         u8path := lit "/home/steve/.mcbeta/saves" |} /\
  eval (getParentFile (codec := ascii_codec)
          (child_of (codec := ascii_codec) game_host dot_mcbeta (lit "saves")))
       game_host
    = dot_mcbeta.
Proof.
  apply (listFiles_child_parent (codec := ascii_codec) ascii_codec_laws
           game_host (lit "/home/steve/.mcbeta") (lit "saves")
           game_host_utf8).
  - reflexivity.
  - reflexivity.
  - vm_compute. intuition discriminate.
  - vm_compute. intuition discriminate.
Defined.

Lemma getParentFile_floor_witness :
  eval (getParentFile (codec := ascii_codec)
          {| path := ulit "/usr"; u8path := lit "/usr" |}) game_host
    = empty_file /\
  eval (getParentFile (codec := ascii_codec) empty_file) game_host
    = empty_file.
Proof.
  split.
  - apply (getParentFile_floor (codec := ascii_codec) ascii_codec_laws
             game_host {| path := ulit "/usr"; u8path := lit "/usr" |}
             uslash (ulit "usr")).
    + vm_compute. intuition discriminate.
    + vm_compute. intuition discriminate.
    + right. split; [reflexivity | now left].
  - apply (getParentFile_floor (codec := ascii_codec) ascii_codec_laws
             game_host empty_file uslash []).
    + simpl. tauto.
    + simpl. tauto.
    + left. reflexivity.
Defined.

Lemma openWorkingDirectory_empty_home_witness :
  openWorkingDirectory (codec := ascii_codec) (ulit ".mcbeta") empty_home_host
    = File_Impl (codec := ascii_codec) (ulit "/.mcbeta") empty_home_host.
Proof.
  apply (openWorkingDirectory_empty_home (codec := ascii_codec)
           ascii_codec_laws empty_home_host (ulit ".mcbeta") []);
    reflexivity.
Defined.

Section Console.

Context {codec : Codec}.

Lemma File_Impl_console (h : Host) (p : jstring) :
  console (exec (File_Impl p) h)
    = console h ++ [open_line (eval (File_Impl p) h)].
Proof. rewrite File_Impl_exec, File_Impl_eval. reflexivity. Qed.

Lemma listFiles_loop_console (this : File) (entries : list u8string) :
  forall (files : list File) (h : Host),
    exists added,
      eval (listFiles_loop this entries files) h = files ++ added /\
      console (exec (listFiles_loop this entries files) h)
        = console h ++ map open_line added.
Proof.
  induction entries as [|d_name entries IH]; intros files h.
  - exists []. cbn [listFiles_loop]. run. now rewrite !app_nil_r.
  - cbn [listFiles_loop].
    destruct (streq d_name (lit ".") || streq d_name (lit ".."));
      [apply IH |].
    pose proof (File_Impl_console h
                  (FromPath (u8path this ++ lit "/" ++ d_name))) as Hc.
    unfold eval, exec, bind in *.
    destruct (File_Impl (FromPath (u8path this ++ lit "/" ++ d_name)) h)
      as [child h1]. cbn [fst snd] in Hc.
    destruct (IH (files ++ [child]) h1) as [added [He Hl]].
    exists (child :: added). rewrite He, Hl, Hc, <- !app_assoc.
    split; reflexivity.
Qed.

(** X8. Every entity constructed is announced: [listFiles] writes one
    line ["Open <stored path>"] to the standard output for each child it
    returns, in their order, and [getParentFile] one line for the parent;
    neither writes anything else. *)
Theorem navigation_console (h : Host) (this : File) :
  console (exec (listFiles this) h)
    = console h ++ map open_line (eval (listFiles this) h) /\
  console (exec (getParentFile this) h)
    = console h ++ [open_line (eval (getParentFile this) h)].
Proof.
  split.
  - unfold listFiles, isDirectory, stat, opendir, closedir, eval, exec, bind,
      gets, ret.
    destruct (namei h (c_str (u8path this))) as [[c i]|] eqn:En;
      cbn [option_map fst snd negb map]; [| now rewrite app_nil_r].
    destruct (S_ISDIR (st_mode (i_stat i))) eqn:Ed;
      cbn [negb fst snd map]; [| now rewrite app_nil_r].
    rewrite En, Ed. cbn [andb].
    destruct (has (st_mode (i_stat i)) S_IRUSR); cbn [fst snd map];
      [| now rewrite app_nil_r].
    cbn [dd_entries].
    destruct (listFiles_loop_console this (map c_str (i_entries i)) []
                (set_dirs h (fresh (fds h ++ dirs h) :: dirs h)))
      as [added [He Hl]].
    unfold eval, exec in He, Hl.
    destruct (listFiles_loop this (map c_str (i_entries i)) []
                (set_dirs h (fresh (fds h ++ dirs h) :: dirs h)))
      as [files h2].
    cbn [fst snd app console set_dirs] in *. subst files.
    destruct (existsb (Z.eqb _) (dirs h2)); cbn [fst snd console set_dirs];
      exact Hl.
  - unfold getParentFile.
    destruct (find_last_of N.eqb (path this) (ulit "/\"));
      apply File_Impl_console.
Qed.

End Console.

(* ===================================================================== *)
(** ** Further properties: the resource directory *)
(* ===================================================================== *)

(** X9. When the executable's path cannot be had ([readlink] fails on
    the Linux branch, the buffer is too small on the [__APPLE__] branch),
    [openResourceDirectory] answers the entity of the empty path. *)
Theorem openResourceDirectory_failure {codec : Codec} (pf : Platform)
    (h : Host) :
  CodecLaws codec ->
  (apple pf = false /\ links h (lit "/proc/self/exe") = None) \/
  (apple pf = true /\
   (uint32_t (PATH_MAX pf)
    < Z.of_nat (List.length (c_str (executable_path h))) + 1)%Z) ->
  eval (openResourceDirectory pf) h = empty_file.
Proof.
  intros L Hcase. unfold eval.
  rewrite (openResourceDirectory_lookup_failure pf h).
  - apply (File_Impl_empty h L).
  - destruct Hcase as [[Ha Hl] | [Ha Hlen]]; rewrite Ha.
    + now rewrite Hl.
    + rewrite Z.gtb_ltb. now apply Z.ltb_lt.
Qed.

Lemma openResourceDirectory_failure_witness :
  eval (openResourceDirectory (codec := ascii_codec) linux_x86_64) bare_host
    = empty_file.
Proof.
  apply (openResourceDirectory_failure (codec := ascii_codec) linux_x86_64
           bare_host ascii_codec_laws).
  left. split; reflexivity.
Defined.

Lemma openResourceDirectory_overrun_witness :
  undefined game_host = false /\
  undefined (exec (openResourceDirectory (codec := ascii_codec) macos_arm64)
                  game_host) = true /\
  undefined (exec (openResourceDirectory (codec := ascii_codec) linux_x86_64)
                  game_host) = false.
Proof.
  split; [reflexivity |]. split.
  - apply (openResourceDirectory_overrun (codec := ascii_codec) macos_arm64
             game_host); [vm_compute; intuition discriminate | reflexivity].
  - apply (openResourceDirectory_overrun (codec := ascii_codec) linux_x86_64
             game_host); [vm_compute; intuition discriminate | reflexivity].
Defined.

Lemma openResourceDirectory_linux_witness :
  firstn 7 (lit "/usr/bin/mcbeta") = lit "/usr/bi" /\
  openResourceDirectory (codec := ascii_codec) linux_x86_64 game_host
    = File_Impl (codec := ascii_codec) (ulit "/usr/resource") game_host.
Proof.
  split; [reflexivity |].
  apply (openResourceDirectory_linux (codec := ascii_codec) ascii_codec_laws
           game_host (lit "/usr/bin/mcbeta") (lit "/usr") (lit "bi")).
  - reflexivity.
  - reflexivity.
  - vm_compute. intuition discriminate.
Defined.

(* ===================================================================== *)
(** ** Further properties: streams *)
(* ===================================================================== *)

Local Open Scope Z_scope.

(** X12. [toStreamIn] only reads: it never creates, cuts or otherwise
    changes a file. A null result leaves the host exactly as it was, with
    no descriptor open; a stream is returned only for a path that exists,
    and holds the one descriptor that was opened. *)
Theorem toStreamIn_read_only (h : Host) (this : File) :
  same_files h (exec (toStreamIn this) h) /\
  match eval (toStreamIn this) h with
  | None => exec (toStreamIn this) h = h
  | Some is_ =>
      eval (exists_ this) h = true /\
      exists fd, Fstream.fb_fd is_ = Some fd /\ ~ In fd (fds h) /\
                 fds (exec (toStreamIn this) h) = fd :: fds h
  end.
Proof.
  unfold toStreamIn, Fstream.ifstream, Fstream.open_stream, exists_, stat.
  change (Fstream.fopen_flags (Z.lor Fstream.ios_binary Fstream.ios_in))
    with (Some O_RDONLY).
  unfold eval, exec, bind, gets, ret, Posix.open.
  destruct (namei h (c_str (u8path this))) as [[c i]|];
    cbn [option_map fst snd].
  - change (has O_RDONLY O_CREAT && has O_RDONLY O_EXCL) with false.
    change (wants_write O_RDONLY) with false.
    change (has O_RDONLY O_TRUNC) with false.
    rewrite andb_false_r. cbn [andb].
    destruct (access_ok i O_RDONLY); cbn [negb].
    + pose proof (fresh_nonneg (fds h)) as Hn.
      destruct (fresh (fds h) <? 0) eqn:E; [apply Z.ltb_lt in E; lia |].
      cbn [Fstream.is_open Fstream.good Fstream.fb_fd Fstream.failbit negb orb
           fst snd].
      split; [split; reflexivity |]. split; [reflexivity |].
      exists (fresh (fds h)).
      split; [reflexivity |]. split; [apply fresh_not_in | reflexivity].
    + cbn [Fstream.is_open Fstream.good Fstream.fb_fd Fstream.failbit negb orb
           fst snd Fstream.destroy].
      split; [split; reflexivity | reflexivity].
  - change (has O_RDONLY O_CREAT) with false.
    cbn [Fstream.is_open Fstream.good Fstream.fb_fd Fstream.failbit negb orb
         fst snd Fstream.destroy].
    split; [split; reflexivity | reflexivity].
Qed.

(** X13. A null result of [toStreamOut] leaves the host exactly as it
    was. When a stream is returned the path exists afterwards, and a path
    that named nothing before names an empty regular file. *)
Theorem toStreamOut_creates_or_fails (h : Host) (this : File) :
  match eval (toStreamOut this) h with
  | None => exec (toStreamOut this) h = h
  | Some os =>
      eval (exists_ this) (exec (toStreamOut this) h) = true /\
      (if eval (exists_ this) h then True
       else eval (isFile this) (exec (toStreamOut this) h) = true /\
            eval (length this) (exec (toStreamOut this) h) = 0)
  end.
Proof.
  rewrite !length_stat.
  unfold toStreamOut, Fstream.ofstream, Fstream.open_stream, exists_, isFile,
    stat.
  change (Fstream.fopen_flags (Z.lor Fstream.ios_binary Fstream.ios_out))
    with (Some 577).
  unfold eval, exec, bind, gets, ret, Posix.open.
  destruct (namei h (c_str (u8path this))) as [[c i]|] eqn:En;
    cbn [option_map fst snd].
  - change (has 577 O_CREAT && has 577 O_EXCL) with false.
    change (wants_write 577) with true.
    change (has 577 O_TRUNC) with true.
    cbn [andb]. repeat rewrite andb_true_r.
    destruct (S_ISDIR (st_mode (i_stat i))); [cbn; reflexivity |].
    destruct (access_ok i 577); cbn [negb]; [| cbn; reflexivity].
    set (h1 := if S_ISREG (st_mode (i_stat i))
               then set_fs h (names h)
                      (upd (inodes h) c (with_size i 0 (clock h)))
               else h).
    assert (Hn1 : exists i', forall l,
               namei (set_fds h1 l) (c_str (u8path this)) = Some (c, i')).
    { unfold h1, namei in *.
      destruct (c_str (u8path this)) as [|a p]; [discriminate |].
      destruct (names h (a :: p)) as [c'|] eqn:Ec; [| discriminate].
      destruct (inodes h c') as [i0|] eqn:Ei; [| discriminate].
      injection En as -> ->.
      destruct (S_ISREG (st_mode (i_stat i))).
      - exists (with_size i 0 (clock h)). intros l.
        cbn [names inodes set_fds set_fs]. rewrite Ec.
        unfold upd, str_eqb. now rewrite streq_refl.
      - exists i. intros l. cbn [names inodes set_fds]. now rewrite Ec, Ei. }
    destruct Hn1 as [i' Hn1].
    pose proof (fresh_nonneg (fds h1)) as Hn.
    destruct (fresh (fds h1) <? 0) eqn:E; [apply Z.ltb_lt in E; lia |].
    cbn [Fstream.is_open Fstream.good Fstream.fb_fd Fstream.failbit negb orb
         fst snd].
    rewrite Hn1. cbn. auto.
  - change (has 577 O_CREAT) with true. cbv iota.
    destruct (creat_at h (c_str (u8path this)) 438) as [h1|] eqn:Ec;
      [| cbn; reflexivity].
    destruct (creat_at_namei _ _ _ _ Ec) as [Hf [c Hn]].
    pose proof (fresh_nonneg (fds h1)) as Hnn.
    destruct (fresh (fds h1) <? 0) eqn:E; [apply Z.ltb_lt in E; lia |].
    cbn [Fstream.is_open Fstream.good Fstream.fb_fd Fstream.failbit negb orb
         fst snd].
    rewrite !namei_set_fds, Hn. cbn [option_map fst snd].
    rewrite (proj1 (new_file_regular 438 (umask h) (clock h))).
    auto.
Qed.

Local Close Scope Z_scope.

(* ===================================================================== *)
(** ** Further properties: making and removing *)
(* ===================================================================== *)

Local Open Scope Z_scope.

Lemma namei_names (h : Host) (p c : u8string) (i : inode) :
  namei h p = Some (c, i) -> p <> [] /\ names h p = Some c /\ inodes h c = Some i.
Proof.
  unfold namei. destruct p as [|a p]; [discriminate |].
  destruct (names h (a :: p)) as [c'|]; [| discriminate].
  destruct (inodes h c') as [i'|] eqn:Ei; [| discriminate].
  intros [= <- <-]. repeat split; [discriminate | exact Ei].
Qed.

Lemma stat_None_namei (h : Host) (p : u8string) :
  eval (stat p) h = None -> namei h p = None.
Proof.
  unfold stat, eval, gets. cbn [fst].
  destruct (namei h p); [discriminate | reflexivity].
Qed.

Lemma exists_namei (h : Host) (this : File) :
  eval (exists_ this) h =
  match namei h (c_str (u8path this)) with Some _ => true | None => false end.
Proof.
  unfold exists_, stat, eval, bind, gets, ret.
  destruct (namei h (c_str (u8path this))); reflexivity.
Qed.

(** A path whose directory part leads nowhere cannot be created. *)
Lemma creat_at_no_directory (h : Host) (p : u8string) (mode : Z) :
  namei h (fst (split_last p)) = None -> creat_at h p mode = None.
Proof.
  unfold creat_at. destruct p as [|a p]; [reflexivity |].
  now intros ->.
Qed.

(** X14. Nothing is created in a directory that does not exist: for a
    path that names nothing and whose directory part leads nowhere,
    [createNewFile] answers false and [toStreamOut] the null pointer, and
    the host is left as it was. *)
Theorem no_creation_without_directory (h : Host) (this : File) :
  eval (exists_ this) h = false ->
  eval (stat (fst (split_last (c_str (u8path this))))) h = None ->
  createNewFile this h = (false, h) /\ toStreamOut this h = (None, h).
Proof.
  rewrite exists_namei. intros He Hd.
  apply stat_None_namei in Hd.
  destruct (namei h (c_str (u8path this))) as [x|] eqn:En; [discriminate |].
  split.
  - rewrite createNewFile_run, En.
    now rewrite (creat_at_no_directory h _ 420 Hd).
  - unfold toStreamOut, Fstream.ofstream, Fstream.open_stream.
    change (Fstream.fopen_flags (Z.lor Fstream.ios_binary Fstream.ios_out))
      with (Some 577).
    unfold bind, ret, Posix.open. rewrite En.
    change (has 577 O_CREAT) with true. cbv iota.
    now rewrite (creat_at_no_directory h _ 438 Hd).
Qed.

Lemma no_creation_without_directory_witness :
  createNewFile orphan_file game_host = (false, game_host) /\
  toStreamOut orphan_file game_host = (None, game_host).
Proof.
  apply (no_creation_without_directory game_host orphan_file); reflexivity.
Defined.

(** X15. [createNewFile] does not turn a directory into a file: on a
    directory it answers false. Whenever it answers false the host is
    left exactly as it was. *)
Theorem createNewFile_refusal (h : Host) (this : File) :
  (if eval (isDirectory this) h
   then eval (createNewFile this) h = false else True) /\
  (if eval (createNewFile this) h
   then True else exec (createNewFile this) h = h).
Proof.
  unfold eval, exec, isDirectory, stat, bind, gets, ret.
  rewrite createNewFile_run.
  destruct (namei h (c_str (u8path this))) as [[c i]|];
    cbn [option_map fst snd].
  - destruct (S_ISDIR (st_mode (i_stat i))); cbn [orb fst snd].
    + split; reflexivity.
    + destruct (negb (access_ok i (Z.lor O_CREAT O_RDWR))); cbn [fst snd];
        split; trivial.
  - destruct (creat_at h (c_str (u8path this)) 420); cbn [fst snd];
      split; trivial.
Qed.

Local Close Scope Z_scope.

Local Open Scope Z_scope.

(** What a [mkdir] that answers 0 has done, and that any other answer
    is -1 with the host untouched. *)
Lemma mkdir_run (h h1 : Host) (p : u8string) (mode r : Z) :
  Posix.mkdir p mode h = (r, h1) ->
  (r = 0 /\ namei h p = None /\ links h p = None /\
   fds h1 = fds h /\ dirs h1 = dirs h /\ console h1 = console h /\
   exists c, namei h1 p = Some (c, new_dir mode (umask h) (clock h))) \/
  (r = -1 /\ h1 = h).
Proof.
  unfold Posix.mkdir.
  destruct (namei h p) as [x|] eqn:En; [intros [= <- <-]; now right |].
  destruct (links h p) as [t|] eqn:El; [intros [= <- <-]; now right |].
  destruct (split_last (strip_slashes p)) as [dir base] eqn:Es.
  destruct base as [|b0 base]; [intros [= <- <-]; now right |].
  destruct (is_dot (b0 :: base)); [intros [= <- <-]; now right |].
  destruct (namei h dir) as [[d di]|]; [| intros [= <- <-]; now right].
  destruct (S_ISDIR (st_mode (i_stat di)) && has (st_mode (i_stat di)) S_IWUSR
            && has (st_mode (i_stat di)) S_IXUSR);
    [| intros [= <- <-]; now right].
  destruct (inodes h (join d (b0 :: base))); [intros [= <- <-]; now right |].
  intros [= <- <-]. left.
  repeat split; try reflexivity.
  exists (join d (b0 :: base)).
  assert (Hp : p <> []).
  { intros ->. cbn in Es. discriminate. }
  unfold namei. destruct p as [|a p]; [congruence |].
  cbn [names inodes set_fs]. unfold upd, str_eqb.
  now rewrite !streq_refl.
Qed.

Lemma mkdir_true (h : Host) (this : File) :
  eval (mkdir this) h = true ->
  Posix.mkdir (c_str (u8path this)) 493 h = (0, exec (mkdir this) h).
Proof.
  unfold mkdir, eval, exec, bind, ret.
  destruct (Posix.mkdir (c_str (u8path this)) 493 h) as [r h1]. cbn [fst snd].
  intros Hr. apply Z.eqb_eq in Hr. now subst.
Qed.

Section Making.

Context {codec : Codec}.

(** X16. A [mkdir] that answers true was given a path that named
    nothing; afterwards the path names a directory in which [listFiles]
    finds nothing, no descriptor or stream is left open, and a second
    [mkdir] answers false without changing anything: unlike
    [createNewFile], [mkdir] does not accept what is already there. *)
Theorem mkdir_makes_directory (h : Host) (this : File) :
  eval (mkdir this) h = true ->
  eval (exists_ this) h = false /\
  eval (isDirectory this) (exec (mkdir this) h) = true /\
  eval (listFiles this) (exec (mkdir this) h) = [] /\
  fds (exec (mkdir this) h) = fds h /\
  dirs (exec (mkdir this) h) = dirs h /\
  mkdir this (exec (mkdir this) h) = (false, exec (mkdir this) h).
Proof.
  rewrite exists_namei. intros Ht.
  pose proof (mkdir_true h this Ht) as E.
  set (h1 := exec (mkdir this) h) in *.
  destruct (mkdir_run _ _ _ _ _ E)
    as [[_ [Hn [Hl [Hf [Hd [_ [c Hn1]]]]]]] | [Hr _]]; [| discriminate].
  rewrite Hn.
  split; [reflexivity |].
  split.
  { unfold isDirectory, stat, eval, bind, gets, ret. rewrite Hn1.
    cbn [option_map fst snd]. apply new_dir_directory. }
  split.
  { unfold listFiles, isDirectory, stat, opendir, closedir, eval, bind, gets,
      ret.
    rewrite Hn1. cbn [option_map fst snd].
    rewrite new_dir_directory.
    cbn [negb]. rewrite Hn1, new_dir_directory.
    cbn [andb].
    destruct (has (st_mode (i_stat (new_dir 493 (umask h) (clock h)))) S_IRUSR);
      [| reflexivity].
    cbn [dd_entries dd_fd new_dir i_entries].
    change (map c_str [lit "."; lit ".."]) with [lit "."; lit ".."].
    cbn [listFiles_loop].
    change (streq (lit ".") (lit ".") || streq (lit ".") (lit "..")) with true.
    change (streq (lit "..") (lit ".") || streq (lit "..") (lit ".."))
      with true.
    cbv iota. unfold ret.
    destruct (existsb (Z.eqb _) _); reflexivity. }
  split; [exact Hf |]. split; [exact Hd |].
  unfold mkdir, bind, ret, Posix.mkdir. rewrite Hn1. reflexivity.
Qed.

End Making.

Lemma mkdir_makes_directory_witness :
  eval (mkdir new_world) game_host = true /\
  eval (isDirectory new_world) (exec (mkdir new_world) game_host) = true /\
  eval (listFiles (codec := ascii_codec) new_world)
       (exec (mkdir new_world) game_host) = [].
Proof.
  split; [reflexivity |].
  split;
    apply (mkdir_makes_directory (codec := ascii_codec) game_host new_world);
    reflexivity.
Defined.

(** X17. [mkdir] answers false on every path that exists, and whenever
    it answers false the host is left exactly as it was. *)
Theorem mkdir_refusal (h : Host) (this : File) :
  (if eval (exists_ this) h then eval (mkdir this) h = false else True) /\
  (if eval (mkdir this) h then True else exec (mkdir this) h = h).
Proof.
  rewrite exists_namei.
  unfold mkdir, eval, exec, bind, ret.
  destruct (Posix.mkdir (c_str (u8path this)) 493 h) as [r h1] eqn:E.
  cbn [fst snd].
  destruct (mkdir_run _ _ _ _ _ E)
    as [[-> [Hn _]] | [-> ->]].
  - rewrite Hn. split; exact I.
  - split; [destruct (namei h (c_str (u8path this))) |]; reflexivity.
Qed.

Local Close Scope Z_scope.

Local Open Scope Z_scope.

(** Once a node is taken out, every path that led to it leads nowhere. *)
Lemma remove_node_namei (h h1 : Host) (c p : u8string) :
  remove_node h c = Some h1 -> names h p = Some c -> namei h1 p = None.
Proof.
  unfold remove_node.
  destruct (writable_parent h c) as [[[d di] base]|]; [| discriminate].
  intros [= <-] Hn. unfold namei. destruct p as [|a p]; [reflexivity |].
  cbn [names inodes set_fs]. rewrite Hn.
  unfold del, str_eqb. now rewrite streq_refl.
Qed.

Lemma remove_node_open (h h1 : Host) (c : u8string) :
  remove_node h c = Some h1 -> fds h1 = fds h /\ dirs h1 = dirs h.
Proof.
  unfold remove_node.
  destruct (writable_parent h c) as [[[d di] base]|]; [| discriminate].
  intros [= <-]. split; reflexivity.
Qed.

(** X18. A [remove] that answers true leaves nothing under the path:
    [exists] is false afterwards, whether a directory, a file or a
    symbolic link was removed, and no descriptor or stream stays open.
    A [remove] that answers false leaves the host exactly as it was. *)
Theorem remove_removes (h : Host) (this : File) :
  if eval (remove this) h
  then eval (exists_ this) (exec (remove this) h) = false /\
       fds (exec (remove this) h) = fds h /\
       dirs (exec (remove this) h) = dirs h
  else exec (remove this) h = h.
Proof.
  rewrite exists_namei.
  unfold remove, isDirectory, stat, rmdir, unlink, eval, exec, bind, gets,
    ret.
  destruct (namei h (c_str (u8path this))) as [[c i]|] eqn:En;
    cbn [option_map fst snd].
  - destruct (namei_names _ _ _ _ En) as [_ [Hn _]].
    destruct (S_ISDIR (st_mode (i_stat i))) eqn:Ed.
    + destruct (links h (c_str (u8path this))); [reflexivity |].
      rewrite En, Ed. cbn [andb].
      destruct (forallb is_dot (map c_str (i_entries i))); [| reflexivity].
      destruct (remove_node h c) as [h1|] eqn:Er; [| reflexivity].
      cbn [fst snd Z.eqb].
      rewrite (remove_node_namei _ _ _ _ Er Hn).
      destruct (remove_node_open _ _ _ Er). auto.
    + destruct (links h (c_str (u8path this))) eqn:El.
      * destruct (writable_parent h (c_str (u8path this)))
          as [[[d di] base]|]; [| reflexivity].
        cbn [fst snd Z.eqb].
        split; [| split; reflexivity].
        unfold namei. destruct (c_str (u8path this)); [reflexivity |].
        cbn [names set_links]. unfold del, str_eqb.
        now rewrite streq_refl.
      * rewrite En, Ed.
        destruct (remove_node h c) as [h1|] eqn:Er; [| reflexivity].
        cbn [fst snd Z.eqb].
        rewrite (remove_node_namei _ _ _ _ Er Hn).
        destruct (remove_node_open _ _ _ Er). auto.
  - destruct (links h (c_str (u8path this))) eqn:El.
    + destruct (writable_parent h (c_str (u8path this)))
        as [[[d di] base]|]; [| reflexivity].
      cbn [fst snd Z.eqb].
      split; [| split; reflexivity].
      unfold namei. destruct (c_str (u8path this)); [reflexivity |].
      cbn [names set_links]. unfold del, str_eqb.
      now rewrite streq_refl.
    + rewrite En. reflexivity.
Qed.

(** X19. [remove] takes no directory with its content: on a directory
    in which [listFiles] finds something it answers false and changes
    nothing. On a path that names nothing and is no symbolic link it
    answers false as well. *)
Theorem remove_refusal {codec : Codec} (h : Host) (this : File) :
  (eval (isDirectory this) h = true /\ eval (listFiles this) h <> []) \/
  (eval (exists_ this) h = false /\ links h (c_str (u8path this)) = None) ->
  remove this h = (false, h).
Proof.
  rewrite exists_namei.
  unfold listFiles, remove, isDirectory, stat, opendir, closedir, rmdir,
    unlink, eval, bind, gets, ret.
  destruct (namei h (c_str (u8path this))) as [[c i]|] eqn:En;
    cbn [option_map fst snd].
  - intros [[Hd Hl] | [Hf _]]; [| discriminate].
    rewrite Hd in *. cbn [negb] in Hl.
    destruct (links h (c_str (u8path this))); [reflexivity |].
    rewrite En, Hd in *. cbn [andb] in *.
    destruct (forallb is_dot (map c_str (i_entries i))) eqn:Ee;
      [| reflexivity].
    exfalso. apply Hl.
    destruct (has (st_mode (i_stat i)) S_IRUSR); [| reflexivity].
    cbn [dd_entries dd_fd].
    assert (Hloop : forall es files hh,
              forallb is_dot es = true ->
              listFiles_loop this es files hh = (files, hh)).
    { induction es as [|e es IH]; intros files hh Hes; [reflexivity |].
      cbn [forallb] in Hes. apply andb_prop in Hes. destruct Hes as [He Hes].
      cbn [listFiles_loop]. unfold is_dot in He. rewrite He.
      now apply IH. }
    rewrite (Hloop _ _ _ Ee).
    destruct (existsb _ _); reflexivity.
  - intros [[Hd _] | [_ Hl]]; [discriminate |].
    rewrite Hl, En. reflexivity.
Qed.

Lemma remove_refusal_witness :
  remove dot_mcbeta game_host = (false, game_host) /\
  remove missing_file game_host = (false, game_host).
Proof.
  split.
  - apply (remove_refusal (codec := ascii_codec) game_host dot_mcbeta).
    left. split; [reflexivity | vm_compute; discriminate].
  - apply (remove_refusal (codec := ascii_codec) game_host missing_file).
    right. split; reflexivity.
Defined.

Local Close Scope Z_scope.

(* ===================================================================== *)
(** ** Further properties: joining, NUL bytes *)
(* ===================================================================== *)

Section Joining.

Context {codec : Codec}.

(** X20. The entity for a file yet to be created in a directory leads
    back to the directory: when [parent/child] does not resolve, [child]
    has no separator and the codec gives the joined path back unchanged,
    the parent of [File::open(parent, child)] is the entity constructed
    from the display path of [parent]. *)
Theorem open_child_parent (h : Host) (parent : File) (child : jstring) :
  ~ In uslash child -> ~ In ubackslash child ->
  eval (realpath (c_str (toUTF8 (path parent ++ uslash :: child)))) h = None ->
  fromUTF8 (toUTF8 (path parent ++ uslash :: child))
    = path parent ++ uslash :: child ->
  path (eval (open_child parent child) h) = path parent ++ uslash :: child /\
  eval (getParentFile (eval (open_child parent child) h)) h
    = eval (File_Impl (path parent)) h.
Proof.
  intros Hs Hb Hr Hrt.
  assert (Hp : path (eval (open_child parent child) h)
               = path parent ++ uslash :: child).
  { unfold open_child. rewrite File_Impl_eval, ToPath_eval, Hr.
    cbn [path]. exact Hrt. }
  split; [exact Hp |].
  unfold getParentFile. rewrite Hp.
  assert (Hfree : forall x, In x child -> ~ In x (ulit "/\")).
  { intros x Hx [<- | [<- | []]]; tauto. }
  unfold jstring, char16 in *.
  rewrite (find_last_of_app N N.eqb Neqb_spec _ _ (ulit "/\") uslash
             (or_introl eq_refl) Hfree).
  now rewrite substr_0, firstn_length_app.
Qed.

(** X21. A path is seen by the host only up to its first NUL byte: two
    path strings whose encodings agree before the first NUL, and resolve,
    give the same entity; and two entities whose stored paths agree
    before the first NUL get the same answer from every probe. *)
Theorem NUL_cuts_the_path (pf : Platform) (h : Host) (p q : jstring)
    (f g : File) :
  c_str (toUTF8 p) = c_str (toUTF8 q) ->
  c_str (u8path f) = c_str (u8path g) ->
  (eval (realpath (c_str (toUTF8 p))) h <> None ->
   eval (File_Impl p) h = eval (File_Impl q) h) /\
  eval (exists_ f) h = eval (exists_ g) h /\
  eval (isDirectory f) h = eval (isDirectory g) h /\
  eval (isFile f) h = eval (isFile g) h /\
  eval (length f) h = eval (length g) h /\
  eval (lastModified pf f) h = eval (lastModified pf g) h.
Proof.
  intros Hpq Hfg. split.
  - intros Hr. rewrite !File_Impl_eval, !ToPath_eval, <- Hpq.
    destruct (eval (realpath (c_str (toUTF8 p))) h); [reflexivity | congruence].
  - unfold exists_, isDirectory, isFile, length, lastModified.
    rewrite Hfg. repeat split; reflexivity.
Qed.

End Joining.

Lemma open_child_parent_witness :
  path (eval (open_child (codec := ascii_codec) dot_mcbeta
                (ulit "new.dat")) game_host)
    = ulit "/home/steve/.mcbeta/new.dat" /\
  eval (getParentFile (codec := ascii_codec)
          (eval (open_child (codec := ascii_codec) dot_mcbeta
                   (ulit "new.dat")) game_host)) game_host
    = dot_mcbeta.
Proof.
  apply (open_child_parent (codec := ascii_codec) game_host dot_mcbeta
           (ulit "new.dat")).
  - vm_compute. intuition discriminate.
  - vm_compute. intuition discriminate.
  - reflexivity.
  - reflexivity.
Defined.

Lemma NUL_cuts_the_path_witness :
  eval (File_Impl (codec := ascii_codec) (ulit "/usr/bin" ++ [0%N] ++ ulit "/x"))
       game_host
    = eval (File_Impl (codec := ascii_codec) (ulit "/usr/bin")) game_host /\
  eval (exists_ {| path := []; u8path := lit "/usr" ++ [NUL] ++ lit "/none" |})
       game_host
    = eval (exists_ {| path := []; u8path := lit "/usr" |}) game_host.
Proof.
  split.
  - apply (NUL_cuts_the_path (codec := ascii_codec) linux_x86_64 game_host
             (ulit "/usr/bin" ++ [0%N] ++ ulit "/x") (ulit "/usr/bin")
             empty_file empty_file);
      [reflexivity | reflexivity | vm_compute; discriminate].
  - apply (NUL_cuts_the_path (codec := ascii_codec) linux_x86_64 game_host
             [] []
             {| path := []; u8path := lit "/usr" ++ [NUL] ++ lit "/none" |}
             {| path := []; u8path := lit "/usr" |});
      reflexivity.
Defined.

(** X22. After a [createNewFile] that answers true the path exists and
    is no directory. *)
Theorem createNewFile_then_exists (h : Host) (this : File) :
  eval (createNewFile this) h = true ->
  eval (exists_ this) (exec (createNewFile this) h) = true /\
  eval (isDirectory this) (exec (createNewFile this) h) = false.
Proof.
  rewrite exists_namei.
  unfold eval, exec, isDirectory, stat, bind, gets, ret.
  rewrite (createNewFile_run h this).
  destruct (namei h (c_str (u8path this))) as [[c i]|] eqn:En.
  - destruct (S_ISDIR (st_mode (i_stat i))) eqn:Ed; cbn [orb fst snd];
      [discriminate |].
    destruct (negb (access_ok i (Z.lor O_CREAT O_RDWR))); cbn [fst snd];
      [discriminate |].
    intros _. rewrite !namei_set_fds, En. cbn [option_map fst snd].
    now rewrite Ed.
  - destruct (creat_at h (c_str (u8path this)) 420) as [h1|] eqn:Ec;
      cbn [fst snd]; [| discriminate].
    intros _. destruct (creat_at_namei _ _ _ _ Ec) as [_ [c Hn]].
    rewrite !namei_set_fds, Hn. cbn [option_map fst snd].
    split; [reflexivity |].
    apply (new_file_regular 420 (umask h) (clock h)).
Qed.

Lemma createNewFile_then_exists_witness :
  eval (createNewFile missing_file) game_host = true /\
  eval (exists_ missing_file) (exec (createNewFile missing_file) game_host)
    = true /\
  eval (isDirectory missing_file)
       (exec (createNewFile missing_file) game_host) = false.
Proof.
  split; [reflexivity |].
  apply (createNewFile_then_exists game_host missing_file). reflexivity.
Defined.
